(** * Textured, lit model shaders: vertex stage and fragment stage

    A shallow embedding of the two GLSL ES 3.00 shader programs of the
    renderer:

    - the vertex shader (transform chain and TBN construction), and
    - [assignment6.textured.frag.glsl] (normal mapping and the light loop).

    GLSL leaves the precision of [float] to the implementation, so the
    shaders are embedded once, over an interface [GLFloat] of the scalar
    operations they use.  Facts that only depend on the control flow of the
    shaders are proved for every implementation of that interface; facts
    that need the laws of arithmetic are proved for the instance of the
    interface given by the real numbers. *)

From Stdlib Require Import Reals Lra List Bool Arith Lia.
From Stdlib Require QArith String.
Import ListNotations.

Set Implicit Arguments.

(** ** Scalars *)

(** The scalar operations of GLSL that the two shaders use.  [fltb] is the
    comparison behind the built-in [max], [feqb] is the operator [==].
    The only law asked of an implementation is that the literal [0.0]
    compares equal to itself. *)
Class GLFloat (F : Type) : Type := {
  fzero : F;
  fone : F;
  ftwo : F;
  fadd : F -> F -> F;
  fsub : F -> F -> F;
  fmul : F -> F -> F;
  fdiv : F -> F -> F;
  fneg : F -> F;
  fsqrt : F -> F;
  fpow : F -> F -> F;
  fltb : F -> F -> bool;
  feqb : F -> F -> bool;
  feqb_zero_zero : feqb fzero fzero = true
}.

Declare Scope glsl_scope.
Delimit Scope glsl_scope with glsl.
Infix "+" := fadd : glsl_scope.
Infix "-" := fsub : glsl_scope.
Infix "*" := fmul : glsl_scope.
Infix "/" := fdiv : glsl_scope.
Notation "- x" := (fneg x) : glsl_scope.

(** ** Vectors and matrices *)

Record vec2 (F : Type) : Type := mk_vec2 { v2x : F; v2y : F }.
Record vec3 (F : Type) : Type := mk_vec3 { vx : F; vy : F; vz : F }.
Record vec4 (F : Type) : Type := mk_vec4 { px : F; py : F; pz : F; pw : F }.

(** Matrices are column-major, as in GLSL: [mat3(a, b, c)] has the columns
    [a], [b], [c]. *)
Record mat3 (F : Type) : Type := mk_mat3 { m3c0 : vec3 F; m3c1 : vec3 F; m3c2 : vec3 F }.
Record mat4 (F : Type) : Type :=
  mk_mat4 { m4c0 : vec4 F; m4c1 : vec4 F; m4c2 : vec4 F; m4c3 : vec4 F }.

(** A sampler is modelled by its lookup function; [texture] applies it. *)
Definition sampler2D (F : Type) : Type := vec2 F -> vec4 F.

Definition texture {F : Type} (s : sampler2D F) (uv : vec2 F) : vec4 F := s uv.

Section Builtins.
Context {F : Type} `{GLFloat F}.
Local Open Scope glsl_scope.

(** [max(x, y)]: y if x < y, otherwise x. *)
Definition fmax (x y : F) : F := if fltb x y then y else x.

(** [vec3(s)] *)
Definition vec3_splat (s : F) : vec3 F := mk_vec3 s s s.

(** [vec4(v, w)] *)
Definition vec4_of (v : vec3 F) (w : F) : vec4 F := mk_vec4 (vx v) (vy v) (vz v) w.

(** Swizzles [.xyz], [.rgb] and [.r] of a [vec4]. *)
Definition xyz (v : vec4 F) : vec3 F := mk_vec3 (px v) (py v) (pz v).
Definition rgb (v : vec4 F) : vec3 F := xyz v.
Definition red (v : vec4 F) : F := px v.

(** Component-wise arithmetic on [vec3]. *)
Definition v3add (a b : vec3 F) : vec3 F :=
  mk_vec3 (vx a + vx b) (vy a + vy b) (vz a + vz b).
Definition v3sub (a b : vec3 F) : vec3 F :=
  mk_vec3 (vx a - vx b) (vy a - vy b) (vz a - vz b).
Definition v3mul (a b : vec3 F) : vec3 F :=
  mk_vec3 (vx a * vx b) (vy a * vy b) (vz a * vz b).
Definition v3neg (a : vec3 F) : vec3 F := mk_vec3 (- vx a) (- vy a) (- vz a).

(** [s * v], [v * s], [v - s] and [v / s] for a scalar [s]. *)
Definition sv3mul (s : F) (v : vec3 F) : vec3 F :=
  mk_vec3 (s * vx v) (s * vy v) (s * vz v).
Definition v3smul (v : vec3 F) (s : F) : vec3 F :=
  mk_vec3 (vx v * s) (vy v * s) (vz v * s).
Definition v3ssub (v : vec3 F) (s : F) : vec3 F :=
  mk_vec3 (vx v - s) (vy v - s) (vz v - s).
Definition v3sdiv (v : vec3 F) (s : F) : vec3 F :=
  mk_vec3 (vx v / s) (vy v / s) (vz v / s).
Definition v4sdiv (v : vec4 F) (s : F) : vec4 F :=
  mk_vec4 (px v / s) (py v / s) (pz v / s) (pw v / s).

(** Geometric built-ins, as GLSL ES 3.00 section 8.4 defines them. *)
Definition dot (a b : vec3 F) : F := vx a * vx b + vy a * vy b + vz a * vz b.
Definition dot4 (a b : vec4 F) : F :=
  px a * px b + py a * py b + pz a * pz b + pw a * pw b.
Definition length (v : vec3 F) : F := fsqrt (dot v v).
Definition length4 (v : vec4 F) : F := fsqrt (dot4 v v).
Definition distance (a b : vec3 F) : F := length (v3sub a b).
Definition normalize (v : vec3 F) : vec3 F := v3sdiv v (length v).
Definition normalize4 (v : vec4 F) : vec4 F := v4sdiv v (length4 v).
Definition cross (a b : vec3 F) : vec3 F :=
  mk_vec3 (vy a * vz b - vy b * vz a)
          (vz a * vx b - vz b * vx a)
          (vx a * vy b - vx b * vy a).
(** [reflect(I, N) = I - 2.0 * dot(N, I) * N] *)
Definition reflect (I N : vec3 F) : vec3 F :=
  v3sub I (sv3mul (ftwo * dot N I) N).

(** Matrix built-ins. *)
Definition transpose (m : mat3 F) : mat3 F :=
  mk_mat3 (mk_vec3 (vx (m3c0 m)) (vx (m3c1 m)) (vx (m3c2 m)))
          (mk_vec3 (vy (m3c0 m)) (vy (m3c1 m)) (vy (m3c2 m)))
          (mk_vec3 (vz (m3c0 m)) (vz (m3c1 m)) (vz (m3c2 m))).

(** [m * v]: the linear combination of the columns of [m]. *)
Definition m3vmul (m : mat3 F) (v : vec3 F) : vec3 F :=
  mk_vec3 (vx (m3c0 m) * vx v + vx (m3c1 m) * vy v + vx (m3c2 m) * vz v)
          (vy (m3c0 m) * vx v + vy (m3c1 m) * vy v + vy (m3c2 m) * vz v)
          (vz (m3c0 m) * vx v + vz (m3c1 m) * vy v + vz (m3c2 m) * vz v).
Definition m4vmul (m : mat4 F) (v : vec4 F) : vec4 F :=
  mk_vec4
    (px (m4c0 m) * px v + px (m4c1 m) * py v + px (m4c2 m) * pz v + px (m4c3 m) * pw v)
    (py (m4c0 m) * px v + py (m4c1 m) * py v + py (m4c2 m) * pz v + py (m4c3 m) * pw v)
    (pz (m4c0 m) * px v + pz (m4c1 m) * py v + pz (m4c2 m) * pz v + pz (m4c3 m) * pw v)
    (pw (m4c0 m) * px v + pw (m4c1 m) * py v + pw (m4c2 m) * pz v + pw (m4c3 m) * pw v).
(** [a * b]: column [j] of the product is [a] times column [j] of [b]. *)
Definition m4mul (a b : mat4 F) : mat4 F :=
  mk_mat4 (m4vmul a (m4c0 b)) (m4vmul a (m4c1 b))
          (m4vmul a (m4c2 b)) (m4vmul a (m4c3 b)).
End Builtins.

(** ** Shader interface: attributes, uniforms, varyings *)

Record VertexAttribs (F : Type) : Type := {
  a_position : vec3 F;
  a_normal : vec3 F;
  a_tangent : vec3 F;
  a_texture_coord : vec2 F
}.

Record VertexUniforms (F : Type) : Type := {
  u_m : mat4 F;
  u_v : mat4 F;
  u_p : mat4 F
}.

(** What the vertex stage hands to the fragment stage. *)
Record Varyings (F : Type) : Type := {
  o_vertex_position_world : vec3 F;
  tbn : mat3 F;
  tex_coords : vec2 F
}.

Record VertexOutput (F : Type) : Type := {
  gl_Position : vec4 F;
  varyings : Varyings F
}.

Record AmbientLight (F : Type) : Type := {
  a_color : vec3 F;
  a_intensity : F
}.

Record DirectionalLight (F : Type) : Type := {
  d_direction : vec3 F;
  d_color : vec3 F;
  d_intensity : F
}.

Record PointLight (F : Type) : Type := {
  p_position : vec3 F;
  p_color : vec3 F;
  p_intensity : F
}.

Record Material (F : Type) : Type := {
  kA : vec3 F;
  kD : vec3 F;
  kS : vec3 F;
  shininess : F;
  map_kD : sampler2D F;
  map_nS : sampler2D F;
  map_norm : sampler2D F
}.

(** The three light arrays have the fixed length [MAX_LIGHTS]; an array is
    modelled by its indexing function, of which the shader reads the
    indices below [MAX_LIGHTS] only. *)
Record FragmentUniforms (F : Type) : Type := {
  u_show_normals : bool;
  u_lights_ambient : nat -> AmbientLight F;
  u_lights_directional : nat -> DirectionalLight F;
  u_lights_point : nat -> PointLight F;
  u_material : Material F;
  u_eye : vec3 F
}.

Definition MAX_LIGHTS : nat := 16.

(** ** The vertex shader *)

Section VertexShader.
Context {F : Type} `{GLFloat F}.
Local Open Scope glsl_scope.

(** [vec4 vertex_position_world = u_m * vec4(a_position, 1.0);] *)
Definition vertex_position_world (u : VertexUniforms F) (a : VertexAttribs F) : vec4 F :=
  m4vmul (u_m u) (vec4_of (a_position a) fone).

(** [vec3 T = normalize(u_m * vec4(a_tangent, 0.0)).xyz;] *)
Definition tbn_T0 (u : VertexUniforms F) (a : VertexAttribs F) : vec3 F :=
  xyz (normalize4 (m4vmul (u_m u) (vec4_of (a_tangent a) fzero))).

(** [vec3 N = normalize(u_m * vec4(a_normal, 0.0)).xyz;] *)
Definition tbn_N (u : VertexUniforms F) (a : VertexAttribs F) : vec3 F :=
  xyz (normalize4 (m4vmul (u_m u) (vec4_of (a_normal a) fzero))).

(** [normalize(T - dot(T, N) * N)] *)
Definition gram_schmidt (T N : vec3 F) : vec3 F :=
  normalize (v3sub T (sv3mul (dot T N) N)).

(** [T = normalize(T - dot(T, N) * N);] *)
Definition tbn_T (u : VertexUniforms F) (a : VertexAttribs F) : vec3 F :=
  gram_schmidt (tbn_T0 u a) (tbn_N u a).

(** [vec3 B = cross(N, T);] *)
Definition tbn_B (u : VertexUniforms F) (a : VertexAttribs F) : vec3 F :=
  cross (tbn_N u a) (tbn_T u a).

Definition vertex_main (u : VertexUniforms F) (a : VertexAttribs F) : VertexOutput F :=
  let vertex_position_world := m4vmul (u_m u) (vec4_of (a_position a) fone) in
  let o_vertex_position_world := xyz vertex_position_world in
  let gl_Position := m4vmul (m4mul (u_p u) (u_v u)) vertex_position_world in
  let tex_coords := a_texture_coord a in
  let T := xyz (normalize4 (m4vmul (u_m u) (vec4_of (a_tangent a) fzero))) in
  let N := xyz (normalize4 (m4vmul (u_m u) (vec4_of (a_normal a) fzero))) in
  let T := normalize (v3sub T (sv3mul (dot T N) N)) in
  let B := cross N T in
  let tbn := transpose (mk_mat3 T B N) in
  {| gl_Position := gl_Position;
     varyings := {| o_vertex_position_world := o_vertex_position_world;
                    tbn := tbn;
                    tex_coords := tex_coords |} |}.
End VertexShader.

(** ** The fragment shader *)

Section FragmentShader.
Context {F : Type} `{GLFloat F}.
Local Open Scope glsl_scope.

(** The shading functions read the varying [tex_coords], a global of the
    shader; it is their first argument here. *)
Definition shadeAmbientLight (tex_coords : vec2 F)
    (material : Material F) (light : AmbientLight F) : vec3 F :=
  if feqb (a_intensity light) fzero then vec3_splat fzero
  else
    v3mul (v3mul (v3smul (a_color light) (a_intensity light)) (kA material))
          (rgb (texture (map_kD material) tex_coords)).

Definition shadeDirectionalLight (tex_coords : vec2 F)
    (material : Material F) (light : DirectionalLight F)
    (normal eye vertex_position : vec3 F) : vec3 F :=
  if feqb (d_intensity light) fzero then vec3_splat fzero
  else
    let result := vec3_splat fzero in
    let N := normalize normal in
    let L := v3neg (normalize (d_direction light)) in
    let V := normalize (v3sub vertex_position eye) in
    let LN := fmax (dot L N) fzero in
    let result :=
      v3add result
        (v3mul (v3mul (v3smul (sv3mul LN (d_color light)) (d_intensity light))
                      (kD material))
               (rgb (texture (map_kD material) tex_coords))) in
    let R := reflect L N in
    let result :=
      v3add result
        (v3mul (v3smul
                  (sv3mul (fpow (fmax (dot R V) fzero)
                                (shininess material
                                 * red (texture (map_nS material) tex_coords)))
                          (d_color light))
                  (d_intensity light))
               (kS material)) in
    result.

Definition shadePointLight (tex_coords : vec2 F)
    (material : Material F) (light : PointLight F)
    (normal eye vertex_position : vec3 F) : vec3 F :=
  let result := vec3_splat fzero in
  if feqb (p_intensity light) fzero then result
  else
    let N := normalize normal in
    let D := distance (p_position light) vertex_position in
    let L := normalize (v3sub (p_position light) vertex_position) in
    let V := normalize (v3sub vertex_position eye) in
    let LN := fmax (dot L N) fzero in
    let result :=
      v3add result
        (v3mul (v3mul (v3smul (sv3mul LN (p_color light)) (p_intensity light))
                      (kD material))
               (rgb (texture (map_kD material) tex_coords))) in
    let R := reflect L N in
    let result :=
      v3add result
        (v3mul (v3smul
                  (sv3mul (fpow (fmax (dot R V) fzero)
                                (shininess material
                                 * red (texture (map_nS material) tex_coords)))
                          (p_color light))
                  (p_intensity light))
               (kS material)) in
    let result := v3smul result (fone / (D * D + fone)) in
    result.

(** The first three statements of [main]: the world normal as the shader
    computes it from the normal map and the interpolated [tbn]. *)
Definition frag_normal (u : FragmentUniforms F) (i : Varyings F) : vec3 F :=
  let normal := rgb (texture (map_norm (u_material u)) (tex_coords i)) in
  let normal := normalize (v3ssub (v3smul normal ftwo) fone) in
  normalize (m3vmul (tbn i) normal).

(** The body of the [for] loop, at index [i]. *)
Definition light_step (u : FragmentUniforms F) (v : Varyings F) (normal : vec3 F)
    (light_contribution : vec3 F) (i : nat) : vec3 F :=
  let light_contribution :=
    v3add light_contribution
          (shadeAmbientLight (tex_coords v) (u_material u) (u_lights_ambient u i)) in
  let light_contribution :=
    v3add light_contribution
          (shadeDirectionalLight (tex_coords v) (u_material u)
             (u_lights_directional u i) normal (u_eye u)
             (o_vertex_position_world v)) in
  v3add light_contribution
        (shadePointLight (tex_coords v) (u_material u) (u_lights_point u i)
           normal (u_eye u) (o_vertex_position_world v)).

(** [main]; the result is [o_fragColor]. *)
Definition fragment_main (u : FragmentUniforms F) (v : Varyings F) : vec4 F :=
  let normal := frag_normal u v in
  if eqb (u_show_normals u) true then vec4_of normal fone
  else
    let light_contribution := vec3_splat fzero in
    let light_contribution :=
      fold_left (light_step u v normal) (seq 0 MAX_LIGHTS) light_contribution in
    vec4_of light_contribution fone.
End FragmentShader.

Local Open Scope R_scope.

(** ** The real numbers as an implementation of [GLFloat]

    The idealised arithmetic of the shading model.  [pow(x, y)] is left
    undefined by GLSL for [x < 0] and for [x = 0] with [y <= 0]; here it is
    [0] whenever [x <= 0]. *)

Definition Rltb (x y : R) : bool := if Rlt_dec x y then true else false.
Definition Reqb (x y : R) : bool := if Req_dec_T x y then true else false.
Definition glsl_pow (x y : R) : R := if Rlt_dec 0 x then Rpower x y else 0.

#[export] Instance RFloat : GLFloat R := {|
  fzero := 0;
  fone := 1;
  ftwo := 2;
  fadd := Rplus;
  fsub := Rminus;
  fmul := Rmult;
  fdiv := Rdiv;
  fneg := Ropp;
  fsqrt := sqrt;
  fpow := glsl_pow;
  fltb := Rltb;
  feqb := Reqb;
  feqb_zero_zero :=
    match Req_dec_T 0 0 as s return ((if s then true else false) = true) with
    | left _ => eq_refl
    | right n => False_ind _ (n eq_refl)
    end
|}.

(** ** The shading model in the spec's words

    The terms the specification names, written over the reals with the
    mathematical [Rmax]; the shader's functions are compared with them. *)

Section ShadingModel.
Local Open Scope R_scope.

(** [a * v] for a real [a]. *)
Definition scale (a : R) (v : vec3 R) : vec3 R :=
  mk_vec3 (a * vx v) (a * vy v) (a * vz v).

(** The component-wise product of colours. *)
Definition modulate (a b : vec3 R) : vec3 R :=
  mk_vec3 (vx a * vx b) (vy a * vy b) (vz a * vz b).

Definition vplus (a b : vec3 R) : vec3 R :=
  mk_vec3 (vx a + vx b) (vy a + vy b) (vz a + vz b).

Definition black : vec3 R := mk_vec3 0 0 0.

(** [color * intensity * kA * diffuseMapSample] *)
Definition ambient_term (color : vec3 R) (intensity : R) (kA sample : vec3 R) : vec3 R :=
  modulate (modulate (scale intensity color) kA) sample.

(** [max(L.N, 0) * color * intensity * kD * diffuseMapSample] *)
Definition diffuse_term (L N color : vec3 R) (intensity : R) (kD sample : vec3 R) : vec3 R :=
  modulate (modulate (scale (Rmax (dot L N) 0 * intensity) color) kD) sample.

(** [max(R.V, 0)^(shininess * specularMapSample.r) * color * intensity * kS]
    with [R = reflect(L, N)]. *)
Definition specular_term (L N V color : vec3 R) (intensity : R) (kS : vec3 R)
    (shininess specular_red : R) : vec3 R :=
  modulate
    (scale (glsl_pow (Rmax (dot (reflect L N) V) 0) (shininess * specular_red) * intensity)
           color)
    kS.

(** [1 / (distance^2 + 1)] *)
Definition attenuation (D : R) : R := 1 / (D * D + 1).

(** The sum of [f 0], ..., [f (n - 1)]. *)
Fixpoint vsum (f : nat -> vec3 R) (n : nat) : vec3 R :=
  match n with
  | O => black
  | S k => vplus (vsum f k) (f k)
  end.

(** The world-space vector with tangent-space coordinates [n] in the frame
    [(T, B, N)]: [n.x * T + n.y * B + n.z * N]. *)
Definition frame_combination (T B N n : vec3 R) : vec3 R :=
  vplus (vplus (scale (vx n) T) (scale (vy n) B)) (scale (vz n) N).

Definition orthonormal (T B N : vec3 R) : Prop :=
  dot T T = 1 /\ dot B B = 1 /\ dot N N = 1 /\
  dot T B = 0 /\ dot T N = 0 /\ dot B N = 0.

(** A model matrix maps directions to directions: the bottom entries of
    its first three columns vanish. *)
Definition affine_on_directions (m : mat4 R) : Prop :=
  pw (m4c0 m) = 0 /\ pw (m4c1 m) = 0 /\ pw (m4c2 m) = 0.
End ShadingModel.

(** The loop of [main] in the spec's words: start from black and, at every
    index, add the three contributions. *)
Section Accumulation.
Context {F : Type} `{GLFloat F}.

Fixpoint accumulate (u : FragmentUniforms F) (v : Varyings F) (normal : vec3 F)
    (n : nat) : vec3 F :=
  match n with
  | O => vec3_splat fzero
  | S i =>
      v3add
        (v3add
           (v3add (accumulate u v normal i)
                  (shadeAmbientLight (tex_coords v) (u_material u) (u_lights_ambient u i)))
           (shadeDirectionalLight (tex_coords v) (u_material u)
              (u_lights_directional u i) normal (u_eye u) (o_vertex_position_world v)))
        (shadePointLight (tex_coords v) (u_material u) (u_lights_point u i)
           normal (u_eye u) (o_vertex_position_world v))
  end.

(** The debug colour in the spec's words: decode the sample from [[0,1]]
    to [[-1,1]], normalize, apply the matrix, normalize. *)
Definition decoded_normal (sample : vec3 F) (m : mat3 F) : vec3 F :=
  normalize (m3vmul m (normalize (v3ssub (v3smul sample ftwo) fone))).
End Accumulation.

(** An ambient-only scene: every directional and every point light of the
    arrays has intensity zero. *)
Definition ambient_only (u : FragmentUniforms R) : Prop :=
  forall i : nat, (i < MAX_LIGHTS)%nat ->
    d_intensity (u_lights_directional u i) = 0 /\
    p_intensity (u_lights_point u i) = 0.

(** The sum of the ambient terms of the first [n] slots. *)
Definition ambient_sum (u : FragmentUniforms R) (v : Varyings R) (n : nat) : vec3 R :=
  vsum (fun i =>
          ambient_term (a_color (u_lights_ambient u i))
                       (a_intensity (u_lights_ambient u i))
                       (kA (u_material u))
                       (rgb (texture (map_kD (u_material u)) (tex_coords v))))
       n.




(** ** Concrete scenes *)

Section Scenes.
Local Open Scope R_scope.

Definition identity4 : mat4 R :=
  mk_mat4 (mk_vec4 1 0 0 0) (mk_vec4 0 1 0 0) (mk_vec4 0 0 1 0) (mk_vec4 0 0 0 1).

Definition origin : vec3 R := mk_vec3 0 0 0.
Definition white : vec3 R := mk_vec3 1 1 1.
Definition uv0 : vec2 R := mk_vec2 0 0.

(** A texture of one colour. *)
Definition flat_texture (c : vec4 R) : sampler2D R := fun _ => c.

Definition identity_transforms : VertexUniforms R :=
  {| u_m := identity4; u_v := identity4; u_p := identity4 |}.

(** A vertex whose tangent is the world y axis and whose normal is the
    world z axis, under the identity model matrix. *)
Definition rotated_vertex : VertexAttribs R :=
  {| a_position := origin;
     a_normal := mk_vec3 0 0 1;
     a_tangent := mk_vec3 0 1 0;
     a_texture_coord := uv0 |}.

(** Lights of intensity zero, to fill unused slots. *)
Definition no_ambient : AmbientLight R := {| a_color := white; a_intensity := 0 |}.
Definition no_directional : DirectionalLight R :=
  {| d_direction := origin; d_color := white; d_intensity := 0 |}.
Definition no_point : PointLight R :=
  {| p_position := origin; p_color := white; p_intensity := 0 |}.

(** A material whose normal map stores the tangent-space normal [(1,0,0)]
    everywhere, encoded as the colour [(1, 1/2, 1/2)]. *)
Definition tangent_x_material : Material R :=
  {| kA := white; kD := white; kS := white; shininess := 1;
     map_kD := flat_texture (mk_vec4 1 1 1 1);
     map_nS := flat_texture (mk_vec4 1 1 1 1);
     map_norm := flat_texture (mk_vec4 1 (1/2) (1/2) 1) |}.

Definition debug_uniforms : FragmentUniforms R :=
  {| u_show_normals := true;
     u_lights_ambient := fun _ => no_ambient;
     u_lights_directional := fun _ => no_directional;
     u_lights_point := fun _ => no_point;
     u_material := tangent_x_material;
     u_eye := origin |}.



(** A model matrix that is not affine: the bottom entry of its first
    column is [4]. *)
Definition projective_model_t : mat4 R :=
  mk_mat4 (mk_vec4 3 0 0 4) (mk_vec4 0 1 0 0) (mk_vec4 0 0 1 0) (mk_vec4 0 0 0 1).

Definition projective_transforms_t : VertexUniforms R :=
  {| u_m := projective_model_t; u_v := identity4; u_p := identity4 |}.

(** A vertex whose tangent is the x axis and whose normal is the y axis. *)
Definition axis_vertex : VertexAttribs R :=
  {| a_position := origin;
     a_normal := mk_vec3 0 1 0;
     a_tangent := mk_vec3 1 0 0;
     a_texture_coord := uv0 |}.

(** One ambient light of intensity [2] in slot [0] over a white material. *)
Definition bright_ambient : AmbientLight R := {| a_color := white; a_intensity := 2 |}.

Definition bright_uniforms : FragmentUniforms R :=
  {| u_show_normals := false;
     u_lights_ambient := fun i => match i with O => bright_ambient | _ => no_ambient end;
     u_lights_directional := fun _ => no_directional;
     u_lights_point := fun _ => no_point;
     u_material := tangent_x_material;
     u_eye := origin |}.

Definition flat_varyings : Varyings R :=
  {| o_vertex_position_world := origin;
     tbn := mk_mat3 (mk_vec3 1 0 0) (mk_vec3 0 1 0) (mk_vec3 0 0 1);
     tex_coords := uv0 |}.

(** The point light of the end-to-end scenario: at [(0,0,5)], white,
    intensity 1; and a directional light shining down the z axis. *)
Definition scenario_point : PointLight R :=
  {| p_position := mk_vec3 0 0 5; p_color := white; p_intensity := 1 |}.

Definition scenario_directional : DirectionalLight R :=
  {| d_direction := mk_vec3 0 0 (-1); d_color := white; d_intensity := 1 |}.

Definition scenario_material : Material R :=
  {| kA := white; kD := mk_vec3 (1/2) (1/2) (1/2); kS := white; shininess := 1;
     map_kD := flat_texture (mk_vec4 1 1 1 1);
     map_nS := flat_texture (mk_vec4 1 1 1 1);
     map_norm := flat_texture (mk_vec4 (1/2) (1/2) 1 1) |}.
End Scenes.

(** ** Lights that stand for each other

    Two lights of a slot stand for each other when they are the same light,
    or when both are switched off: their intensities pass the shader's test
    [intensity == 0.0]. *)

Section StandIns.
Context {F : Type} `{GLFloat F}.

Definition ambient_stand_in (l l' : AmbientLight F) : Prop :=
  l = l' \/
  (feqb (a_intensity l) fzero = true /\ feqb (a_intensity l') fzero = true).

Definition directional_stand_in (l l' : DirectionalLight F) : Prop :=
  l = l' \/
  (feqb (d_intensity l) fzero = true /\ feqb (d_intensity l') fzero = true).

Definition point_stand_in (l l' : PointLight F) : Prop :=
  l = l' \/
  (feqb (p_intensity l) fzero = true /\ feqb (p_intensity l') fzero = true).

(** Two sets of uniforms that differ at most in the fields of lights that
    are switched off in both. *)
Definition same_up_to_switched_off_lights (u u' : FragmentUniforms F) : Prop :=
  u_show_normals u = u_show_normals u' /\
  u_material u = u_material u' /\
  u_eye u = u_eye u' /\
  forall i : nat, (i < MAX_LIGHTS)%nat ->
    ambient_stand_in (u_lights_ambient u i) (u_lights_ambient u' i) /\
    directional_stand_in (u_lights_directional u i) (u_lights_directional u' i) /\
    point_stand_in (u_lights_point u i) (u_lights_point u' i).
End StandIns.

(** A directional light like [scenario_directional], its direction of
    length 2. *)
Definition long_directional : DirectionalLight R :=
  {| d_direction := mk_vec3 0 0 (-2); d_color := white; d_intensity := 1 |}.

(** Switched-off lights with other colours, directions and positions than
    [no_directional] and [no_point]. *)
Definition stale_directional : DirectionalLight R :=
  {| d_direction := mk_vec3 7 0 0; d_color := mk_vec3 5 5 5; d_intensity := 0 |}.

Definition stale_point : PointLight R :=
  {| p_position := mk_vec3 1 2 3; p_color := mk_vec3 9 9 9; p_intensity := 0 |}.

(** [bright_uniforms] with stale switched-off lights in the directional and
    point slots. *)
Definition bright_uniforms_stale : FragmentUniforms R :=
  {| u_show_normals := false;
     u_lights_ambient := fun i => match i with O => bright_ambient | _ => no_ambient end;
     u_lights_directional := fun _ => stale_directional;
     u_lights_point := fun _ => stale_point;
     u_material := tangent_x_material;
     u_eye := origin |}.

(** ** The host side: [Object3D] and [ShadedObject3D]

    The two JavaScript classes that upload the vertex data, describe its
    layout to WebGL and issue the draw call.  A method is embedded as the
    function from the object (and what WebGL hands back: fresh handles,
    attribute locations) to the updated object and the list of WebGL and
    shader calls it makes, in order.  JavaScript numbers are rationals. *)

Module Host.
Import QArith String.
Local Open Scope Q_scope.

(** Handles of WebGL objects: buffers, vertex arrays, textures. *)
Definition handle : Type := nat.

Inductive buffer_target : Type := ARRAY_BUFFER | ELEMENT_ARRAY_BUFFER.

Inductive data_type : Type := FLOAT | UNSIGNED_INT.

(** The typed arrays the data is converted to before it is uploaded:
    [new Float32Array(a)] and [new Uint32Array(a)] of a JavaScript array
    [a]. *)
Inductive typed_array : Type :=
| Float32Array (elements : list Q)
| Uint32Array (elements : list Q).

Inductive pixel_format : Type := RGBA.

Inductive pixel_type : Type := UNSIGNED_BYTE.

Inductive texture_parameter : Type :=
  TEXTURE_WRAP_S | TEXTURE_WRAP_T | TEXTURE_MAG_FILTER | TEXTURE_MIN_FILTER.

Inductive texture_setting : Type := REPEAT | LINEAR | LINEAR_MIPMAP_LINEAR.

(** The calls the classes make on the rendering context [gl] and on
    their [Shader].  [activeTexture n] stands for
    [gl.activeTexture(gl.TEXTURE0 + n)], [pixelStorei b] for
    [gl.pixelStorei(gl.UNPACK_FLIP_Y_WEBGL, b)]; the texture calls have the
    target [gl.TEXTURE_2D]; [bufferData] carries the typed array that is uploaded
    ([STATIC_DRAW] throughout) and [texImage2D] the name of the file the
    image was loaded from. *)
Inductive gl_call : Type :=
| createBuffer (result : handle)
| bufferData (target : buffer_target) (data : typed_array)
| createVertexArray (result : handle)
| deleteVertexArray (vao : option handle)
| bindVertexArray (vao : option handle)
| bindBuffer (target : buffer_target) (buffer : option handle)
| enableVertexAttribArray (location : Z)
| vertexAttribPointer (location : Z) (size : Q) (type : data_type)
    (normalized : bool) (stride offset : Q)
| activeTexture (unit : nat)
| bindTexture (texture : handle)
| drawElements (mode : Z) (count : nat) (type : data_type) (offset : Q)
| use
| unuse
| setUniform4x4f (name : string) (value : list Q)
| setUniform3f (name : string) (value : list Q)
| setUniform1f (name : string) (value : Q)
| setUniform1i (name : string) (value : Z)
| pixelStorei (flip_y : bool)
| createTexture (result : handle)
| texImage2D (level : Z) (internal_format src_format : pixel_format)
    (src_type : pixel_type) (image : string)
| generateMipmap
| texParameteri (pname : texture_parameter) (param : texture_setting).

(** How a method ends: it returns, or a [TypeError] is thrown (a method
    called on [null]). *)
Inductive completion : Type := Normal | TypeError.

(** The class [Material] is imported from [js/app/material.js], which is
    not among the sources: its fields and what its accessors return are the
    fields of this record. *)
Record Material : Type := {
  kA : list Q;
  kD : list Q;
  kS : list Q;
  shininess : Q;
  hasTexture : bool;
  hasMapKD : bool;
  hasMapNS : bool;
  hasMapNorm : bool;
  getMapKD : handle;
  getMapNS : handle;
  getMapNorm : handle
}.

(** Of the class [Shader] the two classes use [getAttributeLocation], which
    answers [-1] for an attribute the program does not have, and the calls
    [use], [unuse] and [setUniform...] recorded in [gl_call]. *)
Record Shader : Type := {
  getAttributeLocation : string -> Z
}.

Inductive class : Type := Object3D_class | ShadedObject3D_class.

Record Object3D : Type := {
  shader : Shader;
  material : option Material;
  vertices : list Q;
  vertices_buffer : option handle;
  indices : list Q;
  index_buffer : option handle;
  draw_mode : Z;
  num_components_vec3 : Q;
  num_components_vec2 : Q;
  vertex_array_object : option handle;
  model_matrix : list Q
}.

(** [Float32Array.BYTES_PER_ELEMENT] *)
Definition BYTES_PER_ELEMENT : Q := 4.

(** [mat4.identity(mat4.create())] of glmatrix: the 4x4 identity. *)
Definition mat4_identity : list Q :=
  [1; 0; 0; 0;  0; 1; 0; 0;  0; 0; 1; 0;  0; 0; 0; 1].

Definition set_vertex_array_object (this : Object3D) (vao : option handle) : Object3D :=
  {| shader := shader this; material := material this;
     vertices := vertices this; vertices_buffer := vertices_buffer this;
     indices := indices this; index_buffer := index_buffer this;
     draw_mode := draw_mode this;
     num_components_vec3 := num_components_vec3 this;
     num_components_vec2 := num_components_vec2 this;
     vertex_array_object := vao;
     model_matrix := model_matrix this |}.

Definition set_shader (this : Object3D) (s : Shader) : Object3D :=
  {| shader := s; material := material this;
     vertices := vertices this; vertices_buffer := vertices_buffer this;
     indices := indices this; index_buffer := index_buffer this;
     draw_mode := draw_mode this;
     num_components_vec3 := num_components_vec3 this;
     num_components_vec2 := num_components_vec2 this;
     vertex_array_object := vertex_array_object this;
     model_matrix := model_matrix this |}.

Definition set_draw_mode (this : Object3D) (mode : Z) : Object3D :=
  {| shader := shader this; material := material this;
     vertices := vertices this; vertices_buffer := vertices_buffer this;
     indices := indices this; index_buffer := index_buffer this;
     draw_mode := mode;
     num_components_vec3 := num_components_vec3 this;
     num_components_vec2 := num_components_vec2 this;
     vertex_array_object := vertex_array_object this;
     model_matrix := model_matrix this |}.

Definition set_model_matrix (this : Object3D) (m : list Q) : Object3D :=
  {| shader := shader this; material := material this;
     vertices := vertices this; vertices_buffer := vertices_buffer this;
     indices := indices this; index_buffer := index_buffer this;
     draw_mode := draw_mode this;
     num_components_vec3 := num_components_vec3 this;
     num_components_vec2 := num_components_vec2 this;
     vertex_array_object := vertex_array_object this;
     model_matrix := m |}.

(** [if (location >= 0) { enable; pointer }] *)
Definition bind_attribute (enabled : bool) (location : Z) (size stride offset : Q)
    : list gl_call :=
  if enabled
  then [enableVertexAttribArray location;
        vertexAttribPointer location size FLOAT false stride offset]
  else [].

(** [Object3D.createVAO(gl, shader)]; [vao] is what
    [gl.createVertexArray()] returns. *)
Definition Object3D_createVAO (this : Object3D) (shader : Shader) (vao : handle)
    : Object3D * list gl_call :=
  let this := set_vertex_array_object this (Some vao) in
  let location := getAttributeLocation shader "a_position" in
  let position :=
    bind_attribute (0 <=? location)%Z location (num_components_vec3 this) 0 0 in
  let location := getAttributeLocation shader "a_normal" in
  let normal :=
    bind_attribute (0 <=? location)%Z location (num_components_vec3 this) 0
      ((inject_Z (Z.of_nat (List.length (vertices this))) / 2) * BYTES_PER_ELEMENT) in
  (this,
   [createVertexArray vao;
    bindVertexArray (Some vao);
    bindBuffer ARRAY_BUFFER (vertices_buffer this)]
   ++ position ++ normal
   ++ [bindVertexArray None; bindBuffer ARRAY_BUFFER None]).

(** [ShadedObject3D.createVAO(gl, shader)].  [this.material.hasTexture()]
    throws when the material is [null], after the vertex array and the
    buffer have been bound. *)
Definition ShadedObject3D_createVAO (this : Object3D) (shader : Shader) (vao : handle)
    : Object3D * list gl_call * completion :=
  let this := set_vertex_array_object this (Some vao) in
  let opening :=
    [createVertexArray vao;
     bindVertexArray (Some vao);
     bindBuffer ARRAY_BUFFER (vertices_buffer this)] in
  match material this with
  | None => (this, opening, TypeError)
  | Some material =>
      let num_total_components := 6 in
      let num_total_components :=
        num_total_components + (if hasTexture material then 5 else 0) in
      let location := getAttributeLocation shader "a_position" in
      let byte_size := BYTES_PER_ELEMENT in
      let stride := byte_size * num_total_components in
      let offset := 0 in
      let position :=
        bind_attribute (0 <=? location)%Z location (num_components_vec3 this)
                       stride offset in
      let location := getAttributeLocation shader "a_normal" in
      let offset := offset + byte_size * num_components_vec3 this in
      let normal :=
        bind_attribute (0 <=? location)%Z location (num_components_vec3 this)
                       stride offset in
      let offset := offset + byte_size * num_components_vec3 this in
      let location := getAttributeLocation shader "a_tangent" in
      let tangent :=
        bind_attribute ((0 <=? location)%Z && hasTexture material) location
                       (num_components_vec3 this) stride offset in
      let offset := offset + byte_size * num_components_vec3 this in
      let location := getAttributeLocation shader "a_texture_coord" in
      let texture_coord :=
        bind_attribute ((0 <=? location)%Z && hasTexture material) location
                       (num_components_vec2 this) stride offset in
      (this,
       opening ++ position ++ normal ++ tangent ++ texture_coord
       ++ [bindVertexArray None; bindBuffer ARRAY_BUFFER None],
       Normal)
  end.

(** The method [createVAO] an object of class [c] has. *)
Definition createVAO (c : class) (this : Object3D) (shader : Shader) (vao : handle)
    : Object3D * list gl_call * completion :=
  match c with
  | Object3D_class =>
      let '(this, calls) := Object3D_createVAO this shader vao in
      (this, calls, Normal)
  | ShadedObject3D_class => ShadedObject3D_createVAO this shader vao
  end.

(** [createVBO(gl)] and [createIBO(gl)]; [buffer] is what
    [gl.createBuffer()] returns. *)
Definition createVBO (this : Object3D) (buffer : handle) : Object3D * list gl_call :=
  ({| shader := shader this; material := material this;
      vertices := vertices this; vertices_buffer := Some buffer;
      indices := indices this; index_buffer := index_buffer this;
      draw_mode := draw_mode this;
      num_components_vec3 := num_components_vec3 this;
      num_components_vec2 := num_components_vec2 this;
      vertex_array_object := vertex_array_object this;
      model_matrix := model_matrix this |},
   [createBuffer buffer;
    bindBuffer ARRAY_BUFFER (Some buffer);
    bufferData ARRAY_BUFFER (Float32Array (vertices this));
    bindBuffer ARRAY_BUFFER None]).

Definition createIBO (this : Object3D) (buffer : handle) : Object3D * list gl_call :=
  ({| shader := shader this; material := material this;
      vertices := vertices this; vertices_buffer := vertices_buffer this;
      indices := indices this; index_buffer := Some buffer;
      draw_mode := draw_mode this;
      num_components_vec3 := num_components_vec3 this;
      num_components_vec2 := num_components_vec2 this;
      vertex_array_object := vertex_array_object this;
      model_matrix := model_matrix this |},
   [createBuffer buffer;
    bindBuffer ELEMENT_ARRAY_BUFFER (Some buffer);
    bufferData ELEMENT_ARRAY_BUFFER (Uint32Array (indices this));
    bindBuffer ELEMENT_ARRAY_BUFFER None]).

(** The constructor of both classes ([ShadedObject3D]'s only calls
    [super]); [vbo], [ibo] and [vao] are the handles WebGL hands out.  The
    result is the constructed object, or [None] when [createVAO] throws. *)
Definition new (c : class) (shader : Shader) (vertices indices : list Q)
    (draw_mode : Z) (material : option Material) (vbo ibo vao : handle)
    : option Object3D * list gl_call :=
  let this :=
    {| shader := shader; material := material;
       vertices := vertices; vertices_buffer := None;
       indices := indices; index_buffer := None;
       draw_mode := draw_mode;
       num_components_vec3 := 3; num_components_vec2 := 2;
       vertex_array_object := None;
       model_matrix := [] |} in
  let '(this, calls_vbo) := createVBO this vbo in
  let '(this, calls_ibo) := createIBO this ibo in
  let '(this, calls_vao, outcome) := createVAO c this shader vao in
  match outcome with
  | TypeError => (None, calls_vbo ++ calls_ibo ++ calls_vao)
  | Normal =>
      (Some (set_model_matrix this mat4_identity),
       calls_vbo ++ calls_ibo ++ calls_vao)
  end.

(** [setShader(gl, shader)] *)
Definition setShader (c : class) (this : Object3D) (shader : Shader) (vao : handle)
    : Object3D * list gl_call * completion :=
  let old := vertex_array_object this in
  let this := set_shader this shader in
  let '(this, calls, outcome) := createVAO c this shader vao in
  (this, deleteVertexArray old :: calls, outcome).

(** [setDrawMode(draw_mode)] and [setTransformation(transformation)] *)
Definition setDrawMode (this : Object3D) (draw_mode : Z) : Object3D :=
  set_draw_mode this draw_mode.

Definition setTransformation (this : Object3D) (transformation : list Q) : Object3D :=
  set_model_matrix this transformation.

(** [Object3D.render(gl)] *)
Definition Object3D_render (this : Object3D) : list gl_call :=
  [bindVertexArray (vertex_array_object this);
   bindBuffer ELEMENT_ARRAY_BUFFER (index_buffer this);
   use;
   setUniform4x4f "u_m" (model_matrix this);
   drawElements (draw_mode this) (List.length (indices this)) UNSIGNED_INT 0;
   bindVertexArray None;
   bindBuffer ARRAY_BUFFER None;
   bindBuffer ELEMENT_ARRAY_BUFFER None;
   unuse].

(** [ShadedObject3D.render(gl)]; reading [this.material.kA] throws when the
    material is [null], after the shader has been activated. *)
Definition ShadedObject3D_render (this : Object3D) : list gl_call * completion :=
  match material this with
  | None => ([use], TypeError)
  | Some material =>
      ([use;
        setUniform3f "u_material.kA" (kA material);
        setUniform3f "u_material.kD" (kD material);
        setUniform3f "u_material.kS" (kS material);
        setUniform1f "u_material.shininess" (shininess material)]
       ++ (if hasMapKD material
           then [activeTexture 0; bindTexture (getMapKD material);
                 setUniform1i "u_material.map_kD" 0%Z]
           else [])
       ++ (if hasMapNS material
           then [activeTexture 1; bindTexture (getMapNS material);
                 setUniform1i "u_material.map_nS" 1%Z]
           else [])
       ++ (if hasMapNorm material
           then [activeTexture 2; bindTexture (getMapNorm material);
                 setUniform1i "u_material.map_norm" 2%Z]
           else [])
       ++ [unuse]
       ++ Object3D_render this,
       Normal)
  end.

(** The method [render] an object of class [c] has. *)
Definition render (c : class) (this : Object3D) : list gl_call * completion :=
  match c with
  | Object3D_class => (Object3D_render this, Normal)
  | ShadedObject3D_class => ShadedObject3D_render this
  end.

(** *** The class [Texture] *)

Record Texture : Type := {
  filename : string;
  texture : option handle
}.

(** [createTexture(gl, flip_y)]: the handle it returns ([created] is what
    [gl.createTexture()] hands out), the calls it makes at once, and the
    calls of the [onload] handler, made when the image has arrived. *)
Definition Texture_createTexture (this : Texture) (flip_y : bool) (created : handle)
    : handle * list gl_call * list gl_call :=
  let texture := created in
  let level := 0%Z in
  let internal_format := RGBA in
  let src_format := RGBA in
  let src_type := UNSIGNED_BYTE in
  (texture,
   [pixelStorei flip_y; createTexture created],
   [bindTexture texture;
    texImage2D level internal_format src_format src_type (filename this);
    generateMipmap;
    texParameteri TEXTURE_WRAP_S REPEAT;
    texParameteri TEXTURE_WRAP_T REPEAT;
    texParameteri TEXTURE_MAG_FILTER LINEAR;
    texParameteri TEXTURE_MIN_FILTER LINEAR_MIPMAP_LINEAR]).

(** The constructor; [flip_y] is [None] when the argument is left out. *)
Definition Texture_new (filename : string) (flip_y : option bool) (created : handle)
    : Texture * list gl_call * list gl_call :=
  let flip_y := match flip_y with Some b => b | None => true end in
  let this := {| filename := filename; texture := None |} in
  let '(t, now, onload) := Texture_createTexture this flip_y created in
  ({| filename := filename; texture := Some t |}, now, onload).

Definition getGlTexture (this : Texture) : option handle := texture this.

(** *** Reading a list of calls

    What WebGL keeps of the calls, as far as the two classes are concerned:
    the current vertex array, the buffer bound to [ARRAY_BUFFER], the
    element buffer of each vertex array ([None] is the default one), whether
    the shader program is in use, the active texture unit, the texture of
    each unit and the value of each sampler uniform. *)

Record gl_state : Type := {
  current_vao : option handle;
  array_buffer : option handle;
  element_buffer : option handle -> option handle;
  program_in_use : bool;
  active_unit : nat;
  unit_texture : nat -> option handle;
  sampler : string -> option Z
}.

Definition same_vao (a b : option handle) : bool :=
  match a, b with
  | None, None => true
  | Some x, Some y => Nat.eqb x y
  | _, _ => false
  end.

Definition step (s : gl_state) (c : gl_call) : gl_state :=
  match c with
  | bindVertexArray vao =>
      {| current_vao := vao; array_buffer := array_buffer s;
         element_buffer := element_buffer s; program_in_use := program_in_use s;
         active_unit := active_unit s; unit_texture := unit_texture s;
         sampler := sampler s |}
  | bindBuffer ARRAY_BUFFER b =>
      {| current_vao := current_vao s; array_buffer := b;
         element_buffer := element_buffer s; program_in_use := program_in_use s;
         active_unit := active_unit s; unit_texture := unit_texture s;
         sampler := sampler s |}
  | bindBuffer ELEMENT_ARRAY_BUFFER b =>
      {| current_vao := current_vao s; array_buffer := array_buffer s;
         element_buffer :=
           (fun vao => if same_vao vao (current_vao s) then b else element_buffer s vao);
         program_in_use := program_in_use s;
         active_unit := active_unit s; unit_texture := unit_texture s;
         sampler := sampler s |}
  | use =>
      {| current_vao := current_vao s; array_buffer := array_buffer s;
         element_buffer := element_buffer s; program_in_use := true;
         active_unit := active_unit s; unit_texture := unit_texture s;
         sampler := sampler s |}
  | unuse =>
      {| current_vao := current_vao s; array_buffer := array_buffer s;
         element_buffer := element_buffer s; program_in_use := false;
         active_unit := active_unit s; unit_texture := unit_texture s;
         sampler := sampler s |}
  | activeTexture n =>
      {| current_vao := current_vao s; array_buffer := array_buffer s;
         element_buffer := element_buffer s; program_in_use := program_in_use s;
         active_unit := n; unit_texture := unit_texture s;
         sampler := sampler s |}
  | bindTexture t =>
      {| current_vao := current_vao s; array_buffer := array_buffer s;
         element_buffer := element_buffer s; program_in_use := program_in_use s;
         active_unit := active_unit s;
         unit_texture :=
           (fun n => if Nat.eqb n (active_unit s) then Some t else unit_texture s n);
         sampler := sampler s |}
  | setUniform1i name value =>
      {| current_vao := current_vao s; array_buffer := array_buffer s;
         element_buffer := element_buffer s; program_in_use := program_in_use s;
         active_unit := active_unit s; unit_texture := unit_texture s;
         sampler :=
           (fun n => if String.eqb n name then Some value else sampler s n) |}
  | _ => s
  end.

Definition run (s : gl_state) (calls : list gl_call) : gl_state :=
  fold_left step calls s.

(** What a call that reads the state finds there. *)
Record attribute_pointer : Type := {
  at_location : Z;
  at_size : Q;
  at_stride : Q;
  at_offset : Q
}.

Inductive observation : Type :=
| pointer_captured (vao buffer : option handle) (p : attribute_pointer)
| uniform_uploaded (in_use : bool) (name : string)
| drawn (vao elements : option handle) (in_use : bool) (mode : Z) (count : nat)
| texture_written (texture : option handle).

Definition observe (s : gl_state) (c : gl_call) : list observation :=
  match c with
  | vertexAttribPointer location size _ _ stride offset =>
      [pointer_captured (current_vao s) (array_buffer s)
         {| at_location := location; at_size := size;
            at_stride := stride; at_offset := offset |}]
  | setUniform4x4f name _ | setUniform3f name _
  | setUniform1f name _ | setUniform1i name _ =>
      [uniform_uploaded (program_in_use s) name]
  | drawElements mode count _ _ =>
      [drawn (current_vao s) (element_buffer s (current_vao s))
             (program_in_use s) mode count]
  | texImage2D _ _ _ _ _ | generateMipmap | texParameteri _ _ =>
      [texture_written (unit_texture s (active_unit s))]
  | _ => []
  end.

Fixpoint observations (s : gl_state) (calls : list gl_call) : list observation :=
  match calls with
  | [] => []
  | c :: calls => observe s c ++ observations (step s c) calls
  end.

Definition draws_of (obs : list observation) : list observation :=
  filter (fun o => match o with drawn _ _ _ _ _ => true | _ => false end) obs.

(** The attribute pointers a list of calls sets, in order. *)
Fixpoint pointers (calls : list gl_call) : list attribute_pointer :=
  match calls with
  | [] => []
  | vertexAttribPointer location size _ _ stride offset :: calls =>
      {| at_location := location; at_size := size;
         at_stride := stride; at_offset := offset |} :: pointers calls
  | _ :: calls => pointers calls
  end.

(** The locations a list of calls enables. *)
Fixpoint enabled (calls : list gl_call) : list Z :=
  match calls with
  | [] => []
  | enableVertexAttribArray location :: calls => location :: enabled calls
  | _ :: calls => enabled calls
  end.

(** The first byte after the attribute within a vertex. *)
Definition end_byte (p : attribute_pointer) : Q :=
  at_offset p + BYTES_PER_ELEMENT * at_size p.

(** The size in bytes of one interleaved vertex, after the comment of
    [ShadedObject3D.createVAO]: [(vx vy vz) (nx ny nz) (tanx tany tanz)
    (tex1 tex2)], or [(vx vy vz) (nx ny nz)] with no texture. *)
Definition vertex_bytes (m : Material) : Q :=
  if hasTexture m then 44 else 24.

(** The attribute lies within one vertex of [bytes] bytes. *)
Definition within_vertex (bytes : Q) (p : attribute_pointer) : Prop :=
  at_stride p == bytes /\ 0 <= at_offset p /\ end_byte p <= bytes.

(** Each attribute ends before the next one starts. *)
Fixpoint consecutive (ps : list attribute_pointer) : Prop :=
  match ps with
  | [] => True
  | p :: ps =>
      match ps with
      | [] => True
      | q :: _ => end_byte p <= at_offset q
      end /\ consecutive ps
  end.

(** The number of bytes the attributes take. *)
Definition bytes_described (ps : list attribute_pointer) : Q :=
  fold_right (fun p acc => BYTES_PER_ELEMENT * at_size p + acc) 0 ps.

(** The attributes the layout of an object has: position and normal, and
    for a [ShadedObject3D] whose material has a texture also tangent and
    texture coordinate. *)
Definition described_attributes (c : class) (this : Object3D) : list string :=
  match c, material this with
  | Object3D_class, _ => ["a_position"%string; "a_normal"%string]
  | ShadedObject3D_class, Some m =>
      if hasTexture m
      then ["a_position"%string; "a_normal"%string; "a_tangent"%string; "a_texture_coord"%string]
      else ["a_position"%string; "a_normal"%string]
  | ShadedObject3D_class, None => []
  end.

(** A state with nothing bound. *)
Definition idle : gl_state :=
  {| current_vao := None; array_buffer := None;
     element_buffer := fun _ => None; program_in_use := false;
     active_unit := 0%nat; unit_texture := fun _ => None;
     sampler := fun _ => None |}.

(** A shader that has all four attributes, and one that has none. *)
Definition full_shader : Shader :=
  {| getAttributeLocation := fun name =>
       if String.eqb name "a_position" then 0%Z
       else if String.eqb name "a_normal" then 1%Z
       else if String.eqb name "a_tangent" then 2%Z
       else if String.eqb name "a_texture_coord" then 3%Z
       else (-1)%Z |}.

Definition textured_material : Material :=
  {| kA := [1; 1; 1]; kD := [1; 1; 1]; kS := [1; 1; 1]; shininess := 8;
     hasTexture := true; hasMapKD := true; hasMapNS := false; hasMapNorm := true;
     getMapKD := 7%nat; getMapNS := 8%nat; getMapNorm := 9%nat |}.

(** One triangle: three interleaved vertices of 11 floats. *)
Definition triangle : option Object3D * list gl_call :=
  new ShadedObject3D_class full_shader (repeat 0 33) [0; 1; 2] 4
      (Some textured_material) 1%nat 2%nat 3%nat.
End Host.

(** ** Proof tools *)

(** Unfold the built-ins and project the real instance. *)
Ltac glsl :=
  cbv beta iota zeta delta
      [fmax vec3_splat vec4_of xyz rgb red v3add v3sub v3mul v3neg sv3mul v3smul
       v3ssub v3sdiv v4sdiv dot dot4 length length4 distance normalize normalize4
       cross reflect transpose m3vmul m4vmul m4mul texture
       scale modulate vplus black];
  cbn [fzero fone ftwo fadd fsub fmul fdiv fneg fsqrt fpow fltb feqb RFloat
       vx vy vz px py pz pw v2x v2y m3c0 m3c1 m3c2 m4c0 m4c1 m4c2 m4c3].

(** Equality of two vectors of reals, one component at a time. *)
Ltac vec_ring := glsl; f_equal; ring.

(** ** Facts about the built-ins *)

Section BuiltinFacts.
Context {F : Type} `{GLFloat F}.

Lemma xyz_vec4_of (v : vec3 F) (w : F) : xyz (vec4_of v w) = v.
Proof. destruct v; reflexivity. Qed.

Lemma pw_vec4_of (v : vec3 F) (w : F) : pw (vec4_of v w) = w.
Proof. reflexivity. Qed.

(** Multiplying by a transposed matrix takes the dot product with each
    column of the original. *)
Lemma m3vmul_transpose (a b c n : vec3 F) :
  m3vmul (transpose (mk_mat3 a b c)) n = mk_vec3 (dot a n) (dot b n) (dot c n).
Proof. reflexivity. Qed.
End BuiltinFacts.

Section RealFacts.
Local Open Scope R_scope.

Lemma Reqb_true (x y : R) : Reqb x y = true <-> x = y.
Proof. unfold Reqb; destruct (Req_dec_T x y); split; congruence. Qed.

Lemma Reqb_false (x y : R) : Reqb x y = false <-> x <> y.
Proof. unfold Reqb; destruct (Req_dec_T x y); split; congruence. Qed.

Lemma fmax_Rmax (x y : R) : fmax x y = Rmax x y.
Proof.
  unfold fmax, Rmax; cbn [fltb RFloat]; unfold Rltb.
  destruct (Rlt_dec x y), (Rle_dec x y); lra.
Qed.

Lemma Rmax_clamp (x : R) : x <= 0 -> Rmax x 0 = 0.
Proof. intros Hx; unfold Rmax; destruct (Rle_dec x 0); lra. Qed.

Lemma sqrt_of_square (x r : R) : 0 <= r -> x = r * r -> sqrt x = r.
Proof. intros Hr ->; apply sqrt_square; exact Hr. Qed.

Lemma v3add_black_l (a : vec3 R) : v3add (vec3_splat fzero) a = a.
Proof. destruct a; vec_ring. Qed.

Lemma v3add_black_r (a : vec3 R) : v3add a (vec3_splat fzero) = a.
Proof. destruct a; vec_ring. Qed.

Lemma dot_self_nonneg (v : vec3 R) : 0 <= dot v v.
Proof. glsl; nra. Qed.

Lemma length_unit (v : vec3 R) : dot v v = 1 -> length v = 1.
Proof. unfold length; cbn [fsqrt RFloat]; intros ->; apply sqrt_1. Qed.

Lemma normalize_unit (v : vec3 R) : dot v v = 1 -> normalize v = v.
Proof.
  intros Hv; unfold normalize; rewrite (length_unit Hv).
  destruct v; glsl; f_equal; field.
Qed.

Lemma dot_normalize_l (r n : vec3 R) : dot (normalize r) n = dot r n / length r.
Proof. glsl; unfold Rdiv; ring. Qed.
End RealFacts.

(** ** Lights that are switched off *)

Section SwitchedOff.
Context {F : Type} `{GLFloat F}.

Lemma shadeAmbientLight_off (tc : vec2 F) (m : Material F) (l : AmbientLight F) :
  feqb (a_intensity l) fzero = true -> shadeAmbientLight tc m l = vec3_splat fzero.
Proof. intros Hz; unfold shadeAmbientLight; rewrite Hz; reflexivity. Qed.

Lemma shadeDirectionalLight_off (tc : vec2 F) (m : Material F)
    (l : DirectionalLight F) (normal eye pos : vec3 F) :
  feqb (d_intensity l) fzero = true ->
  shadeDirectionalLight tc m l normal eye pos = vec3_splat fzero.
Proof. intros Hz; unfold shadeDirectionalLight; rewrite Hz; reflexivity. Qed.

Lemma shadePointLight_off (tc : vec2 F) (m : Material F)
    (l : PointLight F) (normal eye pos : vec3 F) :
  feqb (p_intensity l) fzero = true ->
  shadePointLight tc m l normal eye pos = vec3_splat fzero.
Proof. intros Hz; unfold shadePointLight; rewrite Hz; reflexivity. Qed.
End SwitchedOff.

(** C2: a light of any of the three kinds whose intensity is exactly zero
    contributes exactly the zero vector, whatever its other fields, the
    material, the normal, the eye and the fragment position are.  This holds
    for every implementation of the scalar arithmetic, since the shader
    returns the constant [vec3(0)] before it computes anything. *)
Theorem zero_intensity_contributes_nothing
    (F : Type) (HF : GLFloat F) (tc : vec2 F) (m : Material F)
    (la : AmbientLight F) (ld : DirectionalLight F) (lp : PointLight F)
    (normal eye pos : vec3 F) :
  (a_intensity la = fzero -> shadeAmbientLight tc m la = vec3_splat fzero) /\
  (d_intensity ld = fzero ->
   shadeDirectionalLight tc m ld normal eye pos = vec3_splat fzero) /\
  (p_intensity lp = fzero ->
   shadePointLight tc m lp normal eye pos = vec3_splat fzero).
Proof.
  repeat split; intros Hz.
  - apply shadeAmbientLight_off; rewrite Hz; apply feqb_zero_zero.
  - apply shadeDirectionalLight_off; rewrite Hz; apply feqb_zero_zero.
  - apply shadePointLight_off; rewrite Hz; apply feqb_zero_zero.
Qed.

(** The three lights of intensity zero, the directional one with the
    malformed direction [(0,0,0)], shade to black. *)
Lemma zero_intensity_contributes_nothing_witness :
  shadeAmbientLight uv0 tangent_x_material no_ambient = vec3_splat 0 /\
  shadeDirectionalLight uv0 tangent_x_material no_directional origin origin origin
    = vec3_splat 0 /\
  shadePointLight uv0 tangent_x_material no_point origin origin origin
    = vec3_splat 0.
Proof.
  destruct (zero_intensity_contributes_nothing RFloat uv0 tangent_x_material
              no_ambient no_directional no_point origin origin origin)
    as (Ha & Hd & Hp).
  repeat split; [apply Ha | apply Hd | apply Hp]; reflexivity.
Defined.

(** ** The light loop *)

Section LightLoop.
Context {F : Type} `{GLFloat F}.

Lemma light_loop_accumulate (u : FragmentUniforms F) (v : Varyings F)
    (normal : vec3 F) (n : nat) :
  fold_left (light_step u v normal) (seq 0 n) (vec3_splat fzero)
  = accumulate u v normal n.
Proof.
  induction n as [|n IH].
  - reflexivity.
  - rewrite seq_S, fold_left_app, IH. reflexivity.
Qed.

Lemma fragment_main_lit (u : FragmentUniforms F) (v : Varyings F) :
  u_show_normals u = false ->
  fragment_main u v = vec4_of (accumulate u v (frag_normal u v) MAX_LIGHTS) fone.
Proof.
  intros Hoff; unfold fragment_main; rewrite Hoff; cbn [eqb].
  rewrite light_loop_accumulate; reflexivity.
Qed.

Lemma fragment_main_debug (u : FragmentUniforms F) (v : Varyings F) :
  u_show_normals u = true ->
  fragment_main u v = vec4_of (frag_normal u v) fone.
Proof. intros Hon; unfold fragment_main; rewrite Hon; reflexivity. Qed.

Lemma frag_normal_decoded (u : FragmentUniforms F) (v : Varyings F) :
  frag_normal u v
  = decoded_normal (rgb (texture (map_norm (u_material u)) (tex_coords v))) (tbn v).
Proof. reflexivity. Qed.
End LightLoop.

(** ** The TBN construction *)

Section TBNStructure.
Context {F : Type} `{GLFloat F}.

Lemma vertex_main_tbn (u : VertexUniforms F) (a : VertexAttribs F) :
  tbn (varyings (vertex_main u a))
  = transpose (mk_mat3 (tbn_T u a) (tbn_B u a) (tbn_N u a)).
Proof. reflexivity. Qed.

(** What the fragment stage gets when it multiplies the stored matrix by
    a vector: the coordinates of that vector in the frame. *)
Lemma stored_tbn_times (u : VertexUniforms F) (a : VertexAttribs F) (n : vec3 F) :
  m3vmul (tbn (varyings (vertex_main u a))) n
  = mk_vec3 (dot (tbn_T u a) n) (dot (tbn_B u a) n) (dot (tbn_N u a) n).
Proof. reflexivity. Qed.
End TBNStructure.

Section TBNReals.
Local Open Scope R_scope.

Lemma m4vmul_identity (v : vec4 R) : m4vmul identity4 v = v.
Proof. destruct v; unfold identity4; vec_ring. Qed.

Lemma normalize4_unit (v : vec4 R) : dot4 v v = 1 -> normalize4 v = v.
Proof.
  intros Hv; unfold normalize4, length4; rewrite Hv.
  cbn [fsqrt RFloat]; rewrite sqrt_1.
  destruct v; glsl; f_equal; field.
Qed.

Lemma gram_schmidt_keeps_unit_orthogonal (T N : vec3 R) :
  dot T N = 0 -> dot T T = 1 -> gram_schmidt T N = T.
Proof.
  intros Hperp Hunit; unfold gram_schmidt; rewrite Hperp.
  replace (v3sub T (sv3mul 0 N)) with T by (destruct T, N; vec_ring).
  apply normalize_unit; exact Hunit.
Qed.

(** Gram-Schmidt against a unit vector leaves nothing along it. *)
Lemma gram_schmidt_orthogonal (T N : vec3 R) :
  dot N N = 1 -> dot (gram_schmidt T N) N = 0.
Proof.
  intros Hunit; unfold gram_schmidt; rewrite dot_normalize_l.
  replace (dot (v3sub T (sv3mul (dot T N) N)) N)
    with (dot T N * (1 - dot N N)) by (glsl; ring).
  rewrite Hunit; unfold Rdiv; ring.
Qed.

(** The frame of [rotated_vertex] under the identity model matrix. *)
Lemma rotated_T0 : tbn_T0 identity_transforms rotated_vertex = mk_vec3 0 1 0.
Proof.
  unfold tbn_T0; cbn [u_m identity_transforms a_tangent rotated_vertex].
  rewrite m4vmul_identity, normalize4_unit; [reflexivity | glsl; ring].
Qed.

Lemma rotated_N : tbn_N identity_transforms rotated_vertex = mk_vec3 0 0 1.
Proof.
  unfold tbn_N; cbn [u_m identity_transforms a_normal rotated_vertex].
  rewrite m4vmul_identity, normalize4_unit; [reflexivity | glsl; ring].
Qed.

Lemma rotated_T : tbn_T identity_transforms rotated_vertex = mk_vec3 0 1 0.
Proof.
  unfold tbn_T; rewrite rotated_T0, rotated_N.
  apply gram_schmidt_keeps_unit_orthogonal; glsl; ring.
Qed.

Lemma rotated_B : tbn_B identity_transforms rotated_vertex = mk_vec3 (-1) 0 0.
Proof. unfold tbn_B; rewrite rotated_T, rotated_N; vec_ring. Qed.

(** The tangent-space normal that [tangent_x_material] stores decodes to
    the unit vector [(1,0,0)]. *)
Lemma tangent_x_decoded :
  normalize (v3ssub (v3smul (rgb (mk_vec4 1 (1/2) (1/2) 1)) ftwo) fone)
  = mk_vec3 1 0 0.
Proof.
  replace (v3ssub (v3smul (rgb (mk_vec4 1 (1/2) (1/2) 1)) ftwo) fone)
    with (mk_vec3 1 0 0) by (glsl; f_equal; field).
  apply normalize_unit; glsl; ring.
Qed.

(** The normal the fragment stage computes at [rotated_vertex]. *)
Lemma rotated_frag_normal :
  frag_normal debug_uniforms (varyings (vertex_main identity_transforms rotated_vertex))
  = mk_vec3 0 (-1) 0.
Proof.
  unfold frag_normal; rewrite vertex_main_tbn.
  cbn [u_material debug_uniforms map_norm tangent_x_material].
  unfold texture, flat_texture.
  rewrite tangent_x_decoded.
  rewrite m3vmul_transpose, rotated_T, rotated_B, rotated_N.
  replace (mk_vec3 (dot (mk_vec3 0 1 0) (mk_vec3 1 0 0))
                   (dot (mk_vec3 (-1) 0 0) (mk_vec3 1 0 0))
                   (dot (mk_vec3 0 0 1) (mk_vec3 1 0 0)))
    with (mk_vec3 0 (-1) 0) by vec_ring.
  apply normalize_unit; glsl; ring.
Qed.
End TBNReals.

Section StoredMatrix.
Local Open Scope R_scope.

(** For an orthonormal frame the stored (transposed) matrix inverts the
    change of frame: it sends the world-space vector with tangent-space
    coordinates [n] back to [n]. *)
Lemma stored_tbn_inverts_frame (T B N n : vec3 R) :
  orthonormal T B N ->
  m3vmul (transpose (mk_mat3 T B N)) (frame_combination T B N n) = n.
Proof.
  intros (HT & HB & HN & HTB & HTN & HBN).
  rewrite m3vmul_transpose; unfold frame_combination.
  assert (HBT : dot B T = 0) by (rewrite <- HTB; glsl; ring).
  assert (HNT : dot N T = 0) by (rewrite <- HTN; glsl; ring).
  assert (HNB : dot N B = 0) by (rewrite <- HBN; glsl; ring).
  destruct n as [n1 n2 n3]; cbn [vx vy vz].
  f_equal.
  - replace n1 with (n1 * dot T T + n2 * dot T B + n3 * dot T N) at 2
      by (rewrite HT, HTB, HTN; ring).
    glsl; ring.
  - replace n2 with (n1 * dot B T + n2 * dot B B + n3 * dot B N) at 2
      by (rewrite HBT, HB, HBN; ring).
    glsl; ring.
  - replace n3 with (n1 * dot N T + n2 * dot N B + n3 * dot N N) at 2
      by (rewrite HNT, HNB, HN; ring).
    glsl; ring.
Qed.

Lemma rotated_frame_orthonormal :
  orthonormal (tbn_T identity_transforms rotated_vertex)
              (tbn_B identity_transforms rotated_vertex)
              (tbn_N identity_transforms rotated_vertex).
Proof.
  rewrite rotated_T, rotated_B, rotated_N.
  unfold orthonormal; repeat split; glsl; ring.
Qed.
End StoredMatrix.

(** C1: the stored matrix is the transpose of the matrix with columns
    [(T', B, N)]; multiplying it by a tangent-space normal [n] should give
    the world-space vector [n.x*T' + n.y*B + n.z*N].  At [rotated_vertex]
    under the identity model matrix the frame is orthonormal,
    [T' = (0,1,0)], [B = (-1,0,0)], [N = (0,0,1)], and for [n = (1,0,0)]
    the shader's product is [(0,-1,0)] while the world-space vector is
    [T' = (0,1,0)]; the fragment stage's normal is [(0,-1,0)] as well. *)
Theorem stored_tbn_at_rotated_vertex :
  orthonormal (tbn_T identity_transforms rotated_vertex)
              (tbn_B identity_transforms rotated_vertex)
              (tbn_N identity_transforms rotated_vertex) /\
  m3vmul (tbn (varyings (vertex_main identity_transforms rotated_vertex)))
         (mk_vec3 1 0 0)
  = mk_vec3 0 (-1) 0 /\
  frame_combination (tbn_T identity_transforms rotated_vertex)
                    (tbn_B identity_transforms rotated_vertex)
                    (tbn_N identity_transforms rotated_vertex)
                    (mk_vec3 1 0 0)
  = mk_vec3 0 1 0 /\
  frag_normal debug_uniforms (varyings (vertex_main identity_transforms rotated_vertex))
  = mk_vec3 0 (-1) 0 /\
  m3vmul (tbn (varyings (vertex_main identity_transforms rotated_vertex)))
         (mk_vec3 1 0 0)
  <> frame_combination (tbn_T identity_transforms rotated_vertex)
                       (tbn_B identity_transforms rotated_vertex)
                       (tbn_N identity_transforms rotated_vertex)
                       (mk_vec3 1 0 0).
Proof.
  assert (Hcode :
    m3vmul (tbn (varyings (vertex_main identity_transforms rotated_vertex)))
           (mk_vec3 1 0 0) = mk_vec3 0 (-1) 0).
  { rewrite stored_tbn_times, rotated_T, rotated_B, rotated_N; vec_ring. }
  assert (Hworld :
    frame_combination (tbn_T identity_transforms rotated_vertex)
                      (tbn_B identity_transforms rotated_vertex)
                      (tbn_N identity_transforms rotated_vertex)
                      (mk_vec3 1 0 0) = mk_vec3 0 1 0).
  { rewrite rotated_T, rotated_B, rotated_N; unfold frame_combination; vec_ring. }
  split; [exact rotated_frame_orthonormal |].
  split; [exact Hcode |].
  split; [exact Hworld |].
  split; [exact rotated_frag_normal |].
  rewrite Hcode, Hworld; intros Heq.
  apply (f_equal (@vy R)) in Heq; cbn [vy] in Heq; lra.
Qed.

(** ** The debug branch *)

(** C6: with the show-normals flag on, the output is exactly
    [vec4(normal, 1.0)], the normal being decoded from the normal-map sample
    and multiplied by [tbn] without any rescaling to [[0,1]]; two
    invocations that agree on that sample and on [tbn] give the same output
    whatever their lights, eye, coefficients, shininess and fragment
    position are (for every implementation of the scalar arithmetic).  Over
    the reals, the fragment at [rotated_vertex] gets the colour
    [(0,-1,0,1)], whose green component is negative. *)
Theorem show_normals_bypasses_lighting :
  (forall (F : Type) (HF : GLFloat F) (u u' : FragmentUniforms F) (v v' : Varyings F),
      u_show_normals u = true ->
      u_show_normals u' = true ->
      texture (map_norm (u_material u)) (tex_coords v)
      = texture (map_norm (u_material u')) (tex_coords v') ->
      tbn v = tbn v' ->
      fragment_main u v
      = vec4_of (decoded_normal
                   (rgb (texture (map_norm (u_material u)) (tex_coords v))) (tbn v))
                fone
      /\ fragment_main u v = fragment_main u' v') /\
  fragment_main debug_uniforms
                (varyings (vertex_main identity_transforms rotated_vertex))
  = mk_vec4 0 (-1) 0 1.
Proof.
  split.
  - intros F HF u u' v v' Hon Hon' Hsample Htbn.
    rewrite (fragment_main_debug u v Hon), (fragment_main_debug u' v' Hon').
    rewrite !frag_normal_decoded, Hsample, Htbn. split; reflexivity.
  - rewrite fragment_main_debug by reflexivity.
    rewrite rotated_frag_normal; reflexivity.
Qed.

(** Two debug invocations with different lights, eyes and fragment
    positions, at the fragment of [rotated_vertex]. *)
Lemma show_normals_bypasses_lighting_witness :
  fragment_main debug_uniforms
                (varyings (vertex_main identity_transforms rotated_vertex))
  = fragment_main
      {| u_show_normals := true;
         u_lights_ambient := fun _ => bright_ambient;
         u_lights_directional := fun _ => scenario_directional;
         u_lights_point := fun _ => scenario_point;
         u_material := tangent_x_material;
         u_eye := mk_vec3 0 0 10 |}
      {| o_vertex_position_world := mk_vec3 1 2 3;
         tbn := tbn (varyings (vertex_main identity_transforms rotated_vertex));
         tex_coords := mk_vec2 1 1 |}.
Proof.
  apply (proj1 show_normals_bypasses_lighting); reflexivity.
Defined.

(** ** Ambient light *)

Section Ambient.

Lemma shadeAmbientLight_term (tc : vec2 R) (m : Material R) (l : AmbientLight R) :
  shadeAmbientLight tc m l
  = ambient_term (a_color l) (a_intensity l) (kA m) (rgb (texture (map_kD m) tc)).
Proof.
  unfold shadeAmbientLight, ambient_term; cbn [feqb fzero RFloat].
  destruct (Req_dec_T (a_intensity l) 0) as [Hz | Hnz].
  - apply Reqb_true in Hz as Hb; rewrite Hb, Hz. vec_ring.
  - apply Reqb_false in Hnz as Hb; rewrite Hb. vec_ring.
Qed.

Lemma vsum_ext (f g : nat -> vec3 R) (n : nat) :
  (forall i, (i < n)%nat -> f i = g i) -> vsum f n = vsum g n.
Proof.
  induction n as [|n IH]; intros Hfg; [reflexivity |].
  cbn [vsum]; rewrite IH, (Hfg n) by auto with arith; reflexivity.
Qed.

Lemma accumulate_ambient_only (u : FragmentUniforms R) (v : Varyings R)
    (normal : vec3 R) (n : nat) :
  ambient_only u -> (n <= MAX_LIGHTS)%nat ->
  accumulate u v normal n = ambient_sum u v n.
Proof.
  intros Hoff; induction n as [|n IH]; intros Hn.
  - reflexivity.
  - destruct (Hoff n Hn) as [Hd Hp].
    cbn [accumulate]; rewrite IH by lia.
    rewrite shadeDirectionalLight_off, shadePointLight_off
      by (apply Reqb_true; assumption).
    rewrite !v3add_black_r, shadeAmbientLight_term.
    unfold ambient_sum; cbn [vsum]. vec_ring.
Qed.

Lemma fragment_main_ambient_only (u : FragmentUniforms R) (v : Varyings R) :
  u_show_normals u = false -> ambient_only u ->
  fragment_main u v = vec4_of (ambient_sum u v MAX_LIGHTS) 1.
Proof.
  intros Hflag Hoff; rewrite fragment_main_lit by exact Hflag.
  rewrite accumulate_ambient_only by auto; reflexivity.
Qed.

Lemma bright_ambient_only : ambient_only bright_uniforms.
Proof. intros i _; split; reflexivity. Qed.

Lemma ambient_term_off (color kA sample : vec3 R) :
  ambient_term color 0 kA sample = black.
Proof. unfold ambient_term; vec_ring. Qed.

Lemma vplus_black_r (a : vec3 R) : vplus a black = a.
Proof. destruct a; vec_ring. Qed.

Lemma vplus_black_l (a : vec3 R) : vplus black a = a.
Proof. destruct a; vec_ring. Qed.

Lemma bright_ambient_sum :
  ambient_sum bright_uniforms flat_varyings MAX_LIGHTS = mk_vec3 2 2 2.
Proof.
  unfold ambient_sum, MAX_LIGHTS; cbn [vsum].
  cbn [u_lights_ambient bright_uniforms a_color a_intensity no_ambient bright_ambient].
  rewrite !ambient_term_off, !vplus_black_r, vplus_black_l.
  cbn [u_material bright_uniforms kA map_kD tangent_x_material].
  unfold ambient_term, texture, flat_texture, white; vec_ring.
Qed.

Lemma bright_fragment :
  fragment_main bright_uniforms flat_varyings = mk_vec4 2 2 2 1.
Proof.
  rewrite fragment_main_ambient_only by (reflexivity || exact bright_ambient_only).
  rewrite bright_ambient_sum; reflexivity.
Qed.
End Ambient.

(** C5: an ambient light whose intensity is not zero contributes exactly
    [color * intensity * kA * diffuseMapSample].  Hence in an ambient-only
    scene with the debug flag off the output is the sum of these terms over
    the [MAX_LIGHTS] slots, with alpha 1; and two such invocations that
    agree on the ambient lights, on [kA] and on the diffuse sample give the
    same output, whatever their normal maps, TBN matrices, eye positions and
    fragment positions are. *)
Theorem ambient_only_scene :
  (forall (tc : vec2 R) (m : Material R) (l : AmbientLight R),
      a_intensity l <> 0 ->
      shadeAmbientLight tc m l
      = ambient_term (a_color l) (a_intensity l) (kA m) (rgb (texture (map_kD m) tc))) /\
  (forall (u : FragmentUniforms R) (v : Varyings R),
      u_show_normals u = false -> ambient_only u ->
      fragment_main u v = vec4_of (ambient_sum u v MAX_LIGHTS) 1) /\
  (forall (u u' : FragmentUniforms R) (v v' : Varyings R),
      u_show_normals u = false -> u_show_normals u' = false ->
      ambient_only u -> ambient_only u' ->
      (forall i, (i < MAX_LIGHTS)%nat -> u_lights_ambient u i = u_lights_ambient u' i) ->
      kA (u_material u) = kA (u_material u') ->
      texture (map_kD (u_material u)) (tex_coords v)
      = texture (map_kD (u_material u')) (tex_coords v') ->
      fragment_main u v = fragment_main u' v').
Proof.
  split; [| split].
  - intros tc m l _; apply shadeAmbientLight_term.
  - exact fragment_main_ambient_only.
  - intros u u' v v' Hf Hf' Hoff Hoff' Hlights HkA Hsample.
    rewrite !fragment_main_ambient_only by assumption.
    f_equal; unfold ambient_sum; apply vsum_ext; intros i Hi.
    rewrite (Hlights i Hi), HkA, Hsample; reflexivity.
Qed.

(** The scene with one ambient light of intensity 2: its term, and the
    output of the fragment, [(2,2,2,1)]. *)
Lemma ambient_only_scene_witness :
  shadeAmbientLight uv0 tangent_x_material bright_ambient = mk_vec3 2 2 2 /\
  fragment_main bright_uniforms flat_varyings = mk_vec4 2 2 2 1.
Proof.
  split.
  - rewrite (proj1 ambient_only_scene) by (cbn [a_intensity bright_ambient]; lra).
    cbn [a_color a_intensity bright_ambient kA map_kD tangent_x_material].
    unfold ambient_term, texture, flat_texture, white; vec_ring.
  - rewrite (proj1 (proj2 ambient_only_scene))
      by (reflexivity || exact bright_ambient_only).
    rewrite bright_ambient_sum; reflexivity.
Defined.

(** C7: with the debug flag off, the output is [vec4(sum, 1.0)] where the
    sum starts from black and, for each of the [MAX_LIGHTS = 16] indices in
    turn, has the contributions of [ambient[i]], [directional[i]] and
    [point[i]] added to it without any condition; alpha is exactly 1 and the
    sum is written as it is (for every implementation of the scalar
    arithmetic).  Over the reals, one ambient light of intensity 2 over a
    white material gives the colour [(2,2,2,1)], whose components exceed 1. *)
Theorem light_loop_sums_all_slots :
  MAX_LIGHTS = 16%nat /\
  (forall (F : Type) (HF : GLFloat F) (u : FragmentUniforms F) (v : Varyings F),
      u_show_normals u = false ->
      fragment_main u v = vec4_of (accumulate u v (frag_normal u v) 16) fone /\
      pw (fragment_main u v) = fone) /\
  fragment_main bright_uniforms flat_varyings = mk_vec4 2 2 2 1 /\
  1 < px (fragment_main bright_uniforms flat_varyings).
Proof.
  split; [reflexivity |]. split; [| split].
  - intros F HF u v Hoff; rewrite (fragment_main_lit u v Hoff); split; reflexivity.
  - exact bright_fragment.
  - rewrite bright_fragment; cbn [px]; lra.
Qed.

(** The loop at the scene with one ambient light of intensity 2. *)
Lemma light_loop_sums_all_slots_witness :
  fragment_main bright_uniforms flat_varyings
  = vec4_of (accumulate bright_uniforms flat_varyings
               (frag_normal bright_uniforms flat_varyings) 16) 1 /\
  pw (fragment_main bright_uniforms flat_varyings) = 1.
Proof.
  apply (proj1 (proj2 light_loop_sums_all_slots) R RFloat); reflexivity.
Defined.

(** ** The transform chain *)

Section Transforms.

Lemma m4vmul_m4mul (a b : mat4 R) (v : vec4 R) :
  m4vmul (m4mul a b) v = m4vmul a (m4vmul b v).
Proof.
  destruct a as [[? ? ? ?] [? ? ? ?] [? ? ? ?] [? ? ? ?]].
  destruct b as [[? ? ? ?] [? ? ? ?] [? ? ? ?] [? ? ? ?]].
  destruct v. vec_ring.
Qed.
End Transforms.

(** C8: the vertex stage outputs the clip-space position
    [projection * view * model * (position, 1)], the world-space position
    [(model * (position, 1)).xyz], and the texture coordinate unchanged.
    The shader groups the product as [(u_p * u_v) * (u_m * p)] (for every
    implementation of the scalar arithmetic); over the reals every grouping
    of the product gives the same vector. *)
Theorem vertex_stage_outputs :
  (forall (F : Type) (HF : GLFloat F) (u : VertexUniforms F) (a : VertexAttribs F),
      gl_Position (vertex_main u a)
      = m4vmul (m4mul (u_p u) (u_v u)) (m4vmul (u_m u) (vec4_of (a_position a) fone)) /\
      pw (vec4_of (a_position a) fone) = fone /\
      o_vertex_position_world (varyings (vertex_main u a))
      = xyz (m4vmul (u_m u) (vec4_of (a_position a) fone)) /\
      tex_coords (varyings (vertex_main u a)) = a_texture_coord a) /\
  (forall (u : VertexUniforms R) (a : VertexAttribs R),
      gl_Position (vertex_main u a)
      = m4vmul (u_p u) (m4vmul (u_v u) (m4vmul (u_m u) (vec4_of (a_position a) 1))) /\
      gl_Position (vertex_main u a)
      = m4vmul (m4mul (m4mul (u_p u) (u_v u)) (u_m u)) (vec4_of (a_position a) 1)).
Proof.
  split.
  - intros F HF u a; repeat split.
  - intros u a; split.
    + unfold vertex_main; cbn [gl_Position]; apply m4vmul_m4mul.
    + unfold vertex_main; cbn [gl_Position]; symmetry; apply m4vmul_m4mul.
Qed.

(** ** Directional and point lights *)

Section Phong.

(** The body both shading functions share once [L] and the attenuated
    distance are known, compared with the terms of the shading model. *)
Lemma phong_sum (L N V color kD kS sample : vec3 R) (intensity shin sred : R) :
  v3add
    (v3add (vec3_splat fzero)
       (v3mul (v3mul (v3smul (sv3mul (fmax (dot L N) fzero) color) intensity) kD) sample))
    (v3mul (v3smul (sv3mul (fpow (fmax (dot (reflect L N) V) fzero) (fmul shin sred))
                           color) intensity) kS)
  = vplus (diffuse_term L N color intensity kD sample)
          (specular_term L N V color intensity kS shin sred).
Proof.
  unfold diffuse_term, specular_term; rewrite !fmax_Rmax.
  cbn [fpow fmul fzero RFloat].
  generalize (Rmax (dot L N) 0); intros ln.
  generalize (glsl_pow (Rmax (dot (reflect L N) V) 0) (shin * sred)); intros sp.
  vec_ring.
Qed.

Lemma shadeDirectionalLight_on (tc : vec2 R) (m : Material R)
    (l : DirectionalLight R) (normal eye pos : vec3 R) :
  d_intensity l <> 0 ->
  shadeDirectionalLight tc m l normal eye pos
  = vplus
      (diffuse_term (v3neg (normalize (d_direction l))) (normalize normal)
         (d_color l) (d_intensity l) (kD m) (rgb (texture (map_kD m) tc)))
      (specular_term (v3neg (normalize (d_direction l))) (normalize normal)
         (normalize (v3sub pos eye)) (d_color l) (d_intensity l) (kS m)
         (shininess m) (red (texture (map_nS m) tc))).
Proof.
  intros Hnz; unfold shadeDirectionalLight.
  cbn [feqb fzero RFloat]; apply Reqb_false in Hnz; rewrite Hnz.
  cbv zeta; apply phong_sum.
Qed.

Lemma shadePointLight_on (tc : vec2 R) (m : Material R)
    (l : PointLight R) (normal eye pos : vec3 R) :
  p_intensity l <> 0 ->
  shadePointLight tc m l normal eye pos
  = scale (attenuation (distance (p_position l) pos))
      (vplus
         (diffuse_term (normalize (v3sub (p_position l) pos)) (normalize normal)
            (p_color l) (p_intensity l) (kD m) (rgb (texture (map_kD m) tc)))
         (specular_term (normalize (v3sub (p_position l) pos)) (normalize normal)
            (normalize (v3sub pos eye)) (p_color l) (p_intensity l) (kS m)
            (shininess m) (red (texture (map_nS m) tc)))).
Proof.
  intros Hnz; unfold shadePointLight.
  cbn [feqb fzero RFloat]; apply Reqb_false in Hnz; rewrite Hnz.
  cbv zeta; rewrite phong_sum.
  generalize (distance (p_position l) pos); intros D.
  match goal with |- v3smul ?s _ = scale _ ?s' => generalize s; intros w end.
  unfold attenuation; vec_ring.
Qed.

Lemma distance_self (p : vec3 R) : distance p p = 0.
Proof.
  unfold distance, length; cbn [fsqrt RFloat].
  replace (dot (v3sub p p) (v3sub p p)) with 0 by (glsl; ring).
  apply sqrt_0.
Qed.

Lemma attenuation_defined (D : R) : D * D + 1 <> 0.
Proof. nra. Qed.

Lemma attenuation_zero : attenuation 0 = 1.
Proof. unfold attenuation; field. Qed.
End Phong.

Section Scenario.

Lemma length_of (v : vec3 R) (r : R) : 0 <= r -> dot v v = r * r -> length v = r.
Proof.
  intros Hr Hv; unfold length; cbn [fsqrt RFloat].
  apply sqrt_of_square; assumption.
Qed.

Lemma normalize_of (v : vec3 R) (r : R) :
  0 <= r -> dot v v = r * r -> normalize v = v3sdiv v r.
Proof. intros Hr Hv; unfold normalize; rewrite (length_of Hr Hv); reflexivity. Qed.

Lemma glsl_pow_one (y : R) : glsl_pow 1 y = 1.
Proof.
  unfold glsl_pow; destruct (Rlt_dec 0 1) as [_ | Hn]; [| lra].
  unfold Rpower; rewrite ln_1, Rmult_0_r; apply exp_0.
Qed.

(** The vectors of the end-to-end scenario: the fragment at the origin
    with normal [(0,0,1)], the eye at [(0,0,10)]. *)
Lemma scenario_N : normalize (mk_vec3 0 0 1) = mk_vec3 0 0 1.
Proof. apply normalize_unit; glsl; ring. Qed.

Lemma scenario_V : normalize (v3sub origin (mk_vec3 0 0 10)) = mk_vec3 0 0 (-1).
Proof.
  rewrite (@normalize_of _ 10) by (try lra; unfold origin; glsl; ring).
  unfold origin; glsl; f_equal; field.
Qed.

Lemma scenario_point_L :
  normalize (v3sub (p_position scenario_point) origin) = mk_vec3 0 0 1.
Proof.
  rewrite (@normalize_of _ 5)
    by (try lra; unfold origin; cbn [p_position scenario_point]; glsl; ring).
  unfold origin; cbn [p_position scenario_point]; glsl; f_equal; field.
Qed.

Lemma scenario_point_D : distance (p_position scenario_point) origin = 5.
Proof.
  unfold distance; apply length_of; [lra |].
  unfold origin; cbn [p_position scenario_point]; glsl; ring.
Qed.

Lemma scenario_directional_L :
  v3neg (normalize (d_direction scenario_directional)) = mk_vec3 0 0 1.
Proof.
  rewrite normalize_unit by (cbn [d_direction scenario_directional]; glsl; ring).
  cbn [d_direction scenario_directional]; vec_ring.
Qed.

Lemma scenario_diffuse :
  diffuse_term (mk_vec3 0 0 1) (mk_vec3 0 0 1) white 1 (mk_vec3 (1/2) (1/2) (1/2))
               (rgb (mk_vec4 1 1 1 1))
  = mk_vec3 (1/2) (1/2) (1/2).
Proof.
  unfold diffuse_term.
  replace (dot (mk_vec3 0 0 1) (mk_vec3 0 0 1)) with 1 by (glsl; ring).
  rewrite Rmax_left by lra. unfold white; glsl; f_equal; field.
Qed.

Lemma scenario_specular :
  specular_term (mk_vec3 0 0 1) (mk_vec3 0 0 1) (mk_vec3 0 0 (-1)) white 1 white 1 1
  = mk_vec3 1 1 1.
Proof.
  unfold specular_term.
  replace (dot (reflect (mk_vec3 0 0 1) (mk_vec3 0 0 1)) (mk_vec3 0 0 (-1)))
    with 1 by (glsl; ring).
  rewrite Rmax_left by lra. rewrite glsl_pow_one. unfold white; vec_ring.
Qed.
End Scenario.

(** C3: a point light whose intensity is not zero contributes
    [(diffuse + specular) * 1/(D*D + 1)] with [D = distance(lightPos, fragPos)],
    [L = normalize(lightPos - fragPos)], [N = normalize(normal)],
    [V = normalize(fragPos - eye)],
    [diffuse = max(L.N, 0) * color * intensity * kD * diffuseMapSample] and
    [specular = max(reflect(L,N).V, 0)^(shininess * specularMapSample.r)
                * color * intensity * kS];
    the attenuation multiplies the sum of the two.  The denominator of the
    attenuation is never zero, the distance of a point to itself is zero,
    and the attenuation at distance zero is exactly 1. *)
Theorem point_light_shading
    (tc : vec2 R) (m : Material R) (l : PointLight R) (normal eye pos : vec3 R) :
  p_intensity l <> 0 ->
  shadePointLight tc m l normal eye pos
  = scale (attenuation (distance (p_position l) pos))
      (vplus
         (diffuse_term (normalize (v3sub (p_position l) pos)) (normalize normal)
            (p_color l) (p_intensity l) (kD m) (rgb (texture (map_kD m) tc)))
         (specular_term (normalize (v3sub (p_position l) pos)) (normalize normal)
            (normalize (v3sub pos eye)) (p_color l) (p_intensity l) (kS m)
            (shininess m) (red (texture (map_nS m) tc)))) /\
  (forall D : R, attenuation D = 1 / (D * D + 1) /\ D * D + 1 <> 0) /\
  distance pos pos = 0 /\
  attenuation (distance pos pos) = 1.
Proof.
  intros Hnz. split; [apply shadePointLight_on; exact Hnz |].
  split; [intros D; split; [reflexivity | apply attenuation_defined] |].
  split; [apply distance_self |].
  rewrite distance_self; apply attenuation_zero.
Qed.

(** The end-to-end scenario: the point light at [(0,0,5)], white, of
    intensity 1, over [kD = (1/2,1/2,1/2)]; the fragment at the origin with
    normal [(0,0,1)], the eye at [(0,0,10)].  The diffuse term is
    [(1/2,1/2,1/2)], the specular term [(1,1,1)], the attenuation
    [1/(25+1)]. *)
Lemma point_light_shading_witness :
  shadePointLight uv0 scenario_material scenario_point
                  (mk_vec3 0 0 1) (mk_vec3 0 0 10) origin
  = scale (1 / (25 + 1)) (vplus (mk_vec3 (1/2) (1/2) (1/2)) (mk_vec3 1 1 1)).
Proof.
  assert (Hnz : p_intensity scenario_point <> 0)
    by (cbn [p_intensity scenario_point]; lra).
  rewrite (proj1 (@point_light_shading uv0 scenario_material scenario_point
                    (mk_vec3 0 0 1) (mk_vec3 0 0 10) origin Hnz)).
  rewrite scenario_point_D, scenario_point_L, scenario_N, scenario_V.
  cbn [p_color p_intensity scenario_point kD kS shininess map_kD map_nS
       scenario_material].
  unfold texture, flat_texture.
  rewrite scenario_diffuse.
  change (red (mk_vec4 1 1 1 1)) with 1.
  rewrite scenario_specular.
  unfold attenuation; glsl; f_equal; field.
Defined.

Section LongDirection.

Lemma long_directional_L :
  v3neg (normalize (d_direction long_directional)) = mk_vec3 0 0 1.
Proof.
  cbn [d_direction long_directional].
  rewrite (@normalize_of _ 2) by (try lra; glsl; ring).
  glsl; f_equal; field.
Qed.

Lemma long_directional_negated :
  v3neg (d_direction long_directional) = mk_vec3 0 0 2.
Proof. cbn [d_direction long_directional]; vec_ring. Qed.

Lemma glsl_pow_1_r (x : R) : 0 < x -> glsl_pow x (1 * 1) = x.
Proof.
  intros Hx; unfold glsl_pow; destruct (Rlt_dec 0 x) as [_ | Hn]; [| contradiction].
  rewrite Rmult_1_r; apply Rpower_1; exact Hx.
Qed.

Lemma long_diffuse :
  diffuse_term (mk_vec3 0 0 2) (mk_vec3 0 0 1) white 1 (mk_vec3 (1/2) (1/2) (1/2))
               (rgb (mk_vec4 1 1 1 1))
  = mk_vec3 1 1 1.
Proof.
  unfold diffuse_term.
  replace (dot (mk_vec3 0 0 2) (mk_vec3 0 0 1)) with 2 by (glsl; ring).
  rewrite Rmax_left by lra. unfold white; glsl; f_equal; field.
Qed.

Lemma long_specular :
  specular_term (mk_vec3 0 0 2) (mk_vec3 0 0 1) (mk_vec3 0 0 (-1)) white 1 white 1 1
  = mk_vec3 2 2 2.
Proof.
  unfold specular_term.
  replace (dot (reflect (mk_vec3 0 0 2) (mk_vec3 0 0 1)) (mk_vec3 0 0 (-1)))
    with 2 by (glsl; ring).
  rewrite Rmax_left by lra. rewrite glsl_pow_1_r by lra. unfold white; vec_ring.
Qed.

Lemma long_directional_shaded :
  shadeDirectionalLight uv0 scenario_material long_directional
                        (mk_vec3 0 0 1) (mk_vec3 0 0 10) origin
  = mk_vec3 (3/2) (3/2) (3/2).
Proof.
  rewrite shadeDirectionalLight_on by (cbn [d_intensity long_directional]; lra).
  rewrite long_directional_L, scenario_N, scenario_V.
  cbn [d_color d_intensity long_directional kD kS shininess map_kD map_nS
       scenario_material].
  unfold texture, flat_texture.
  rewrite scenario_diffuse.
  change (red (mk_vec4 1 1 1 1)) with 1.
  rewrite scenario_specular.
  glsl; f_equal; field.
Qed.

Lemma long_directional_formula :
  vplus
    (diffuse_term (v3neg (d_direction long_directional)) (normalize (mk_vec3 0 0 1))
       (d_color long_directional) (d_intensity long_directional)
       (kD scenario_material) (rgb (texture (map_kD scenario_material) uv0)))
    (specular_term (v3neg (d_direction long_directional)) (normalize (mk_vec3 0 0 1))
       (normalize (v3sub origin (mk_vec3 0 0 10)))
       (d_color long_directional) (d_intensity long_directional)
       (kS scenario_material) (shininess scenario_material)
       (red (texture (map_nS scenario_material) uv0)))
  = mk_vec3 3 3 3.
Proof.
  rewrite long_directional_negated, scenario_N, scenario_V.
  cbn [d_color d_intensity long_directional kD kS shininess map_kD map_nS
       scenario_material].
  unfold texture, flat_texture.
  rewrite long_diffuse.
  change (red (mk_vec4 1 1 1 1)) with 1.
  rewrite long_specular.
  vec_ring.
Qed.
End LongDirection.

(** C4, as the specification states it, with the incidence vector [L] the
    negated direction itself: for the light [long_directional], whose
    direction [(0,0,-2)] is of length 2, on the fragment of the end-to-end
    scenario the shader returns [(3/2,3/2,3/2)], while the stated formula
    with [L = (0,0,2)] gives [(3,3,3)]. *)
Lemma directional_light_shading_counterexample :
  shadeDirectionalLight uv0 scenario_material long_directional
                        (mk_vec3 0 0 1) (mk_vec3 0 0 10) origin
  = mk_vec3 (3/2) (3/2) (3/2) /\
  vplus
    (diffuse_term (v3neg (d_direction long_directional)) (normalize (mk_vec3 0 0 1))
       (d_color long_directional) (d_intensity long_directional)
       (kD scenario_material) (rgb (texture (map_kD scenario_material) uv0)))
    (specular_term (v3neg (d_direction long_directional)) (normalize (mk_vec3 0 0 1))
       (normalize (v3sub origin (mk_vec3 0 0 10)))
       (d_color long_directional) (d_intensity long_directional)
       (kS scenario_material) (shininess scenario_material)
       (red (texture (map_nS scenario_material) uv0)))
  = mk_vec3 3 3 3 /\
  shadeDirectionalLight uv0 scenario_material long_directional
                        (mk_vec3 0 0 1) (mk_vec3 0 0 10) origin
  <> vplus
       (diffuse_term (v3neg (d_direction long_directional)) (normalize (mk_vec3 0 0 1))
          (d_color long_directional) (d_intensity long_directional)
          (kD scenario_material) (rgb (texture (map_kD scenario_material) uv0)))
       (specular_term (v3neg (d_direction long_directional))
          (normalize (mk_vec3 0 0 1))
          (normalize (v3sub origin (mk_vec3 0 0 10)))
          (d_color long_directional) (d_intensity long_directional)
          (kS scenario_material) (shininess scenario_material)
          (red (texture (map_nS scenario_material) uv0))).
Proof.
  split; [exact long_directional_shaded |].
  split; [exact long_directional_formula |].
  rewrite long_directional_shaded, long_directional_formula.
  intros E; apply (f_equal (@vx R)) in E; cbn [vx] in E; lra.
Qed.

(** C4: a directional light whose intensity is not zero contributes
    [diffuse + specular], nothing else multiplying the sum.  [L] is the
    negated unit vector of the given direction (the negated direction
    itself when the direction has length 1), [N = normalize(normal)],
    [V = normalize(fragPos - eye)],
    [diffuse = max(L.N, 0) * color * intensity * kD * diffuseMapSample] and
    [specular = max(R.V, 0)^(shininess * specularMapSample.r)
                * color * intensity * kS] with [R = reflect(L, N)].
    The shader's [max(x, 0)] is exactly 0 for every [x <= 0], so that the
    diffuse term is the zero vector when [L.N <= 0]. *)
Theorem directional_light_shading
    (tc : vec2 R) (m : Material R) (l : DirectionalLight R) (normal eye pos : vec3 R) :
  d_intensity l <> 0 ->
  shadeDirectionalLight tc m l normal eye pos
  = vplus
      (diffuse_term (v3neg (normalize (d_direction l))) (normalize normal)
         (d_color l) (d_intensity l) (kD m) (rgb (texture (map_kD m) tc)))
      (specular_term (v3neg (normalize (d_direction l))) (normalize normal)
         (normalize (v3sub pos eye)) (d_color l) (d_intensity l) (kS m)
         (shininess m) (red (texture (map_nS m) tc))) /\
  (dot (d_direction l) (d_direction l) = 1 ->
   v3neg (normalize (d_direction l)) = v3neg (d_direction l)) /\
  (forall x : R, x <= 0 -> fmax x fzero = 0) /\
  (dot (v3neg (normalize (d_direction l))) (normalize normal) <= 0 ->
   diffuse_term (v3neg (normalize (d_direction l))) (normalize normal)
     (d_color l) (d_intensity l) (kD m) (rgb (texture (map_kD m) tc))
   = black).
Proof.
  intros Hnz. split; [apply shadeDirectionalLight_on; exact Hnz |].
  split; [intros Hunit; rewrite (normalize_unit Hunit); reflexivity |].
  split; [intros x Hx; rewrite fmax_Rmax; apply Rmax_clamp; exact Hx |].
  intros Hneg; unfold diffuse_term; rewrite (Rmax_clamp Hneg). vec_ring.
Qed.

(** The directional light shining down the z axis on the fragment of the
    end-to-end scenario: diffuse [(1/2,1/2,1/2)] plus specular [(1,1,1)]. *)
Lemma directional_light_shading_witness :
  shadeDirectionalLight uv0 scenario_material scenario_directional
                        (mk_vec3 0 0 1) (mk_vec3 0 0 10) origin
  = mk_vec3 (3/2) (3/2) (3/2).
Proof.
  assert (Hnz : d_intensity scenario_directional <> 0)
    by (cbn [d_intensity scenario_directional]; lra).
  rewrite (proj1 (@directional_light_shading uv0 scenario_material
                    scenario_directional (mk_vec3 0 0 1) (mk_vec3 0 0 10) origin Hnz)).
  rewrite scenario_directional_L, scenario_N, scenario_V.
  cbn [d_color d_intensity scenario_directional kD kS shininess map_kD map_nS
       scenario_material].
  unfold texture, flat_texture.
  rewrite scenario_diffuse.
  change (red (mk_vec4 1 1 1 1)) with 1.
  rewrite scenario_specular.
  glsl; f_equal; field.
Defined.

(** ** Frames under affine and under projective model matrices *)

Section Frames.

Lemma length4_of (v : vec4 R) (r : R) : 0 <= r -> dot4 v v = r * r -> length4 v = r.
Proof.
  intros Hr Hv; unfold length4; cbn [fsqrt RFloat].
  apply sqrt_of_square; assumption.
Qed.

Lemma normalize4_of (v : vec4 R) (r : R) :
  0 <= r -> dot4 v v = r * r -> normalize4 v = v4sdiv v r.
Proof. intros Hr Hv; unfold normalize4; rewrite (length4_of Hr Hv); reflexivity. Qed.

Lemma dot_self_pos (v : vec3 R) : v <> black -> 0 < dot v v.
Proof.
  destruct v as [x y z]; intros Hv.
  destruct (Rle_lt_dec (dot (mk_vec3 x y z) (mk_vec3 x y z)) 0) as [Hle | Hlt];
    [| exact Hlt].
  exfalso; apply Hv; revert Hle; glsl; intros Hle.
  assert (x = 0) by nra. assert (y = 0) by nra. assert (z = 0) by nra.
  subst; reflexivity.
Qed.

(** A direction keeps [w = 0] under a model matrix that is affine on
    directions, whatever the translation column is. *)
Lemma affine_direction_w (m : mat4 R) (d : vec3 R) :
  affine_on_directions m -> pw (m4vmul m (vec4_of d 0)) = 0.
Proof.
  intros (H0 & H1 & H2); glsl; rewrite H0, H1, H2; ring.
Qed.

(** Under such a matrix the normalized 4-vector has a unit [xyz] part. *)
Lemma affine_direction_unit (m : mat4 R) (d : vec3 R) :
  affine_on_directions m ->
  xyz (m4vmul m (vec4_of d fzero)) <> black ->
  dot (xyz (normalize4 (m4vmul m (vec4_of d fzero))))
      (xyz (normalize4 (m4vmul m (vec4_of d fzero)))) = 1.
Proof.
  intros Haff Hnz.
  pose proof (affine_direction_w d Haff) as Hw.
  pose proof (dot_self_pos Hnz) as Hpos.
  cbn [fzero RFloat] in *.
  destruct (m4vmul m (vec4_of d 0)) as [x y z w].
  cbn [pw] in Hw; subst w.
  revert Hpos; glsl; intros Hpos.
  replace (x * x + y * y + z * z + 0 * 0) with (x * x + y * y + z * z) by ring.
  set (s := x * x + y * y + z * z) in *.
  assert (Hs : sqrt s * sqrt s = s) by (apply sqrt_sqrt; lra).
  assert (Hs0 : sqrt s <> 0) by (intros E; rewrite E in Hs; lra).
  replace (x / sqrt s * (x / sqrt s) + y / sqrt s * (y / sqrt s)
           + z / sqrt s * (z / sqrt s))
    with (s / (sqrt s * sqrt s)) by (unfold s; field; exact Hs0).
  rewrite Hs; field; lra.
Qed.






(** The frame of [axis_vertex] under [projective_model_t]: the tangent is
    not of unit length. *)
Lemma projective_t_T0 :
  tbn_T0 projective_transforms_t axis_vertex = mk_vec3 (3/5) 0 0.
Proof.
  unfold tbn_T0.
  rewrite (@normalize4_of _ 5)
    by (try lra; cbn [u_m projective_transforms_t a_tangent axis_vertex];
        unfold projective_model_t; glsl; ring).
  cbn [u_m projective_transforms_t a_tangent axis_vertex].
  unfold projective_model_t; glsl; f_equal; field.
Qed.

Lemma projective_t_N :
  tbn_N projective_transforms_t axis_vertex = mk_vec3 0 1 0.
Proof.
  unfold tbn_N.
  rewrite (@normalize4_of _ 1)
    by (try lra; cbn [u_m projective_transforms_t a_normal axis_vertex];
        unfold projective_model_t; glsl; ring).
  cbn [u_m projective_transforms_t a_normal axis_vertex].
  unfold projective_model_t; glsl; f_equal; field.
Qed.

Lemma projective_t_T :
  tbn_T projective_transforms_t axis_vertex = mk_vec3 1 0 0.
Proof.
  unfold tbn_T; rewrite projective_t_T0, projective_t_N; unfold gram_schmidt.
  replace (v3sub (mk_vec3 (3/5) 0 0)
             (sv3mul (dot (mk_vec3 (3/5) 0 0) (mk_vec3 0 1 0)) (mk_vec3 0 1 0)))
    with (mk_vec3 (3/5) 0 0) by vec_ring.
  rewrite (@normalize_of _ (3/5)) by (try lra; glsl; field).
  glsl; f_equal; field.
Qed.
End Frames.



(** C10, as the specification states it, at [axis_vertex] under the model
    matrix [projective_model_t]: [T = (3/5, 0, 0)] and [N = (0, 1, 0)] are
    orthogonal, and the Gram-Schmidt step turns [T] into [(1, 0, 0)]. *)
Lemma gram_schmidt_idempotent_counterexample :
  dot (tbn_T0 projective_transforms_t axis_vertex)
      (tbn_N projective_transforms_t axis_vertex) = 0 /\
  tbn_T0 projective_transforms_t axis_vertex = mk_vec3 (3/5) 0 0 /\
  tbn_T projective_transforms_t axis_vertex = mk_vec3 1 0 0 /\
  tbn_T projective_transforms_t axis_vertex
  <> tbn_T0 projective_transforms_t axis_vertex.
Proof.
  rewrite projective_t_T, projective_t_T0, projective_t_N.
  split; [glsl; ring |]. split; [reflexivity |]. split; [reflexivity |].
  intros E; apply (f_equal (@vx R)) in E; cbn [vx] in E; lra.
Qed.

(** C10: for every vertex whose tangent [T] and normal [N], as the first
    two steps compute them, are orthogonal, and whose [T] is of unit
    length, the Gram-Schmidt step leaves the tangent unchanged:
    [normalize(T - (T.N) N) = T]. *)
Theorem gram_schmidt_idempotent (u : VertexUniforms R) (a : VertexAttribs R) :
  dot (tbn_T0 u a) (tbn_N u a) = 0 ->
  dot (tbn_T0 u a) (tbn_T0 u a) = 1 ->
  tbn_T u a = tbn_T0 u a /\
  normalize (v3sub (tbn_T0 u a) (sv3mul (dot (tbn_T0 u a) (tbn_N u a)) (tbn_N u a)))
  = tbn_T0 u a.
Proof.
  intros Hperp Hunit.
  assert (HT : tbn_T u a = tbn_T0 u a)
    by (unfold tbn_T; apply gram_schmidt_keeps_unit_orthogonal; assumption).
  split; [exact HT | exact HT].
Qed.

(** The tangent of [rotated_vertex] under the identity model matrix is of
    unit length and orthogonal to the normal; the step keeps it. *)
Lemma gram_schmidt_idempotent_witness :
  tbn_T identity_transforms rotated_vertex
  = tbn_T0 identity_transforms rotated_vertex.
Proof.
  refine (proj1 (@gram_schmidt_idempotent identity_transforms rotated_vertex _ _)).
  - rewrite rotated_T0, rotated_N; glsl; ring.
  - rewrite rotated_T0; glsl; ring.
Defined.

(** ** Switched-off lights in the whole fragment stage *)

Section Inert.
Context {F : Type} `{GLFloat F}.

Lemma shadeAmbientLight_stand_in (tc : vec2 F) (m : Material F)
    (l l' : AmbientLight F) :
  ambient_stand_in l l' -> shadeAmbientLight tc m l = shadeAmbientLight tc m l'.
Proof.
  intros [-> | [Hl Hl']]; [reflexivity |].
  rewrite !shadeAmbientLight_off by assumption; reflexivity.
Qed.

Lemma shadeDirectionalLight_stand_in (tc : vec2 F) (m : Material F)
    (l l' : DirectionalLight F) (normal eye pos : vec3 F) :
  directional_stand_in l l' ->
  shadeDirectionalLight tc m l normal eye pos
  = shadeDirectionalLight tc m l' normal eye pos.
Proof.
  intros [-> | [Hl Hl']]; [reflexivity |].
  rewrite !shadeDirectionalLight_off by assumption; reflexivity.
Qed.

Lemma shadePointLight_stand_in (tc : vec2 F) (m : Material F)
    (l l' : PointLight F) (normal eye pos : vec3 F) :
  point_stand_in l l' ->
  shadePointLight tc m l normal eye pos = shadePointLight tc m l' normal eye pos.
Proof.
  intros [-> | [Hl Hl']]; [reflexivity |].
  rewrite !shadePointLight_off by assumption; reflexivity.
Qed.

Lemma accumulate_stand_in (u u' : FragmentUniforms F) (v : Varyings F)
    (normal : vec3 F) (n : nat) :
  same_up_to_switched_off_lights u u' -> (n <= MAX_LIGHTS)%nat ->
  accumulate u v normal n = accumulate u' v normal n.
Proof.
  intros (Hflag & Hm & He & Hl); induction n as [|n IH]; intros Hn.
  - reflexivity.
  - destruct (Hl n Hn) as (Ha & Hd & Hp).
    cbn [accumulate]; rewrite IH by lia.
    rewrite <- Hm, <- He.
    rewrite (shadeAmbientLight_stand_in (tex_coords v) (u_material u) Ha).
    rewrite (shadeDirectionalLight_stand_in (tex_coords v) (u_material u)
               normal (u_eye u) (o_vertex_position_world v) Hd).
    rewrite (shadePointLight_stand_in (tex_coords v) (u_material u)
               normal (u_eye u) (o_vertex_position_world v) Hp).
    reflexivity.
Qed.

Lemma frag_normal_same_material (u u' : FragmentUniforms F) (v : Varyings F) :
  u_material u = u_material u' -> frag_normal u v = frag_normal u' v.
Proof. intros Hm; unfold frag_normal; rewrite Hm; reflexivity. Qed.

Lemma fragment_main_stand_in (u u' : FragmentUniforms F) (v : Varyings F) :
  same_up_to_switched_off_lights u u' -> fragment_main u v = fragment_main u' v.
Proof.
  intros Hsame; pose proof Hsame as (Hflag & Hm & He & Hl).
  destruct (u_show_normals u) eqn:Hu.
  - rewrite (fragment_main_debug u v Hu).
    rewrite (fragment_main_debug u' v (eq_sym Hflag)).
    rewrite (frag_normal_same_material u u' v Hm); reflexivity.
  - rewrite (fragment_main_lit u v Hu).
    rewrite (fragment_main_lit u' v (eq_sym Hflag)).
    rewrite (frag_normal_same_material u u' v Hm).
    rewrite (@accumulate_stand_in u u' v (frag_normal u' v) MAX_LIGHTS Hsame
               (Nat.le_refl MAX_LIGHTS)).
    reflexivity.
Qed.
End Inert.

Lemma bright_uniforms_stale_same :
  same_up_to_switched_off_lights bright_uniforms_stale bright_uniforms.
Proof.
  unfold same_up_to_switched_off_lights.
  split; [reflexivity |]. split; [reflexivity |]. split; [reflexivity |].
  intros i _; split; [left; reflexivity |].
  split; right; split; apply Reqb_true; reflexivity.
Qed.

(** X18: for every implementation of the scalar arithmetic, the fields of
    a light that is switched off never reach the output of the fragment
    stage: two sets of uniforms with the same debug flag, material and eye,
    whose lights in each of the 16 slots are either the same or both pass
    the shader's test [intensity == 0.0], give the same output for every
    fragment, whatever colours, directions and positions the switched-off
    lights hold. *)
Theorem switched_off_lights_are_inert
    (F : Type) (HF : GLFloat F) (u u' : FragmentUniforms F) (v : Varyings F) :
  same_up_to_switched_off_lights u u' -> fragment_main u v = fragment_main u' v.
Proof. intros Hsame; apply fragment_main_stand_in; exact Hsame. Qed.

(** The scene with one ambient light of intensity 2, once with stale
    switched-off lights in the directional and point slots. *)
Lemma switched_off_lights_are_inert_witness :
  fragment_main bright_uniforms_stale flat_varyings
  = fragment_main bright_uniforms flat_varyings.
Proof.
  apply (@switched_off_lights_are_inert R RFloat bright_uniforms_stale
           bright_uniforms flat_varyings bright_uniforms_stale_same).
Defined.

(** ** The host side: layout of the vertex data *)

Module HostFacts.
Import QArith String Host.
Local Open Scope Q_scope.

Lemma material_set_vertex_array_object (this : Object3D) (vao : option handle) :
  material (set_vertex_array_object this vao) = material this.
Proof. reflexivity. Qed.

(** Comparisons of concrete rationals. *)
Ltac q_decide :=
  vm_compute; first [reflexivity | discriminate | tauto].

(** X9: [ShadedObject3D.createVAO], for an object that has a material and
    the component counts 3 and 2 the constructor sets, returns normally and
    describes an interleaved vertex of 44 bytes (24 without texture): every
    attribute pointer it sets has that stride and lies within one vertex,
    each attribute ends before the next one starts, and when the shader has
    all the attributes the material calls for, the attributes take up the
    whole vertex. *)
Theorem interleaved_layout_fits_the_vertex
    (this : Object3D) (sh : Shader) (vao : handle) (m : Material) :
  material this = Some m ->
  num_components_vec3 this = 3 ->
  num_components_vec2 this = 2 ->
  snd (ShadedObject3D_createVAO this sh vao) = Normal /\
  Forall (within_vertex (vertex_bytes m))
         (pointers (snd (fst (ShadedObject3D_createVAO this sh vao)))) /\
  consecutive (pointers (snd (fst (ShadedObject3D_createVAO this sh vao)))) /\
  bytes_described (pointers (snd (fst (ShadedObject3D_createVAO this sh vao))))
  <= vertex_bytes m /\
  ((0 <= getAttributeLocation sh "a_position")%Z ->
   (0 <= getAttributeLocation sh "a_normal")%Z ->
   (hasTexture m = true ->
    (0 <= getAttributeLocation sh "a_tangent")%Z /\
    (0 <= getAttributeLocation sh "a_texture_coord")%Z) ->
   bytes_described (pointers (snd (fst (ShadedObject3D_createVAO this sh vao))))
   == vertex_bytes m).
Proof.
  intros Hm H3 H2.
  unfold ShadedObject3D_createVAO, vertex_bytes.
  rewrite material_set_vertex_array_object, Hm.
  cbn [num_components_vec3 num_components_vec2 set_vertex_array_object].
  rewrite H3, H2.
  destruct (hasTexture m);
    destruct (0 <=? getAttributeLocation sh "a_position")%Z eqn:Hp;
    destruct (0 <=? getAttributeLocation sh "a_normal")%Z eqn:Hn;
    destruct (0 <=? getAttributeLocation sh "a_tangent")%Z eqn:Ht;
    destruct (0 <=? getAttributeLocation sh "a_texture_coord")%Z eqn:Hc;
    cbn [andb bind_attribute app pointers fst snd];
    (split; [reflexivity |]);
    (split; [repeat constructor; q_decide |]);
    (split; [cbn [consecutive]; repeat split; q_decide |]);
    (split; [q_decide |]);
    intros Lp Ln Lt;
    try (apply Z.leb_gt in Hp; lia);
    try (apply Z.leb_gt in Hn; lia);
    try (destruct (Lt eq_refl) as [Lt1 Lt2]; apply Z.leb_gt in Ht; lia);
    try (destruct (Lt eq_refl) as [Lt1 Lt2]; apply Z.leb_gt in Hc; lia);
    q_decide.
Qed.

(** The triangle: a textured object under a shader that has all four
    attributes. *)
Lemma interleaved_layout_fits_the_vertex_witness :
  bytes_described
    (pointers
       (snd (fst (ShadedObject3D_createVAO
                    {| shader := full_shader; material := Some textured_material;
                       vertices := repeat 0 33; vertices_buffer := Some 1%nat;
                       indices := [0; 1; 2]; index_buffer := Some 2%nat;
                       draw_mode := 4;
                       num_components_vec3 := 3; num_components_vec2 := 2;
                       vertex_array_object := None; model_matrix := [] |}
                    full_shader 3%nat))))
  <= vertex_bytes textured_material.
Proof.
  refine (proj1 (proj2 (proj2 (proj2
            (@interleaved_layout_fits_the_vertex _ full_shader 3%nat
               textured_material _ _ _)))));
    reflexivity.
Defined.

(** X10: [createVAO] of either class enables exactly the attributes of the
    object's layout that the shader has (location not negative), in layout
    order, and sets one pointer for each of them: an attribute the shader
    lacks is never enabled, and without a texture tangent and texture
    coordinate are never enabled, even if the shader has them. *)
Theorem only_located_layout_attributes_are_enabled
    (c : class) (this : Object3D) (sh : Shader) (vao : handle) :
  enabled (snd (fst (createVAO c this sh vao)))
  = filter (fun l => (0 <=? l)%Z)
           (map (getAttributeLocation sh) (described_attributes c this)) /\
  map at_location (pointers (snd (fst (createVAO c this sh vao))))
  = enabled (snd (fst (createVAO c this sh vao))) /\
  Forall (fun l => (0 <= l)%Z) (enabled (snd (fst (createVAO c this sh vao)))).
Proof.
  assert (Hfilter : forall ls : list Z,
             Forall (fun l => (0 <= l)%Z) (filter (fun l => (0 <=? l)%Z) ls)).
  { intros ls; apply Forall_forall; intros l Hl.
    apply filter_In in Hl; destruct Hl as [_ Hl]; apply Z.leb_le; exact Hl. }
  assert (Hmain :
    enabled (snd (fst (createVAO c this sh vao)))
    = filter (fun l => (0 <=? l)%Z)
             (map (getAttributeLocation sh) (described_attributes c this)) /\
    map at_location (pointers (snd (fst (createVAO c this sh vao))))
    = enabled (snd (fst (createVAO c this sh vao)))).
  { unfold createVAO, described_attributes, ShadedObject3D_createVAO,
      Object3D_createVAO.
    rewrite material_set_vertex_array_object.
    destruct c; [| destruct (material this) as [m |]; [destruct (hasTexture m) |]];
      cbn [map filter fst snd];
      repeat match goal with
             | |- context [(0 <=? getAttributeLocation sh ?n)%Z] =>
                 destruct (0 <=? getAttributeLocation sh n)%Z
             end;
      split; reflexivity. }
  destruct Hmain as [He Hp]; repeat split; try assumption.
  rewrite He; apply Hfilter.
Qed.

(** X11: [Object3D.createVAO] reads tightly packed positions from the
    start of the buffer and tightly packed normals from byte
    [2 * vertices.length]; for a buffer that holds the positions followed by
    as many normals, that is the byte right after the last position. *)
Theorem separate_layout_normals_follow_positions
    (this : Object3D) (sh : Shader) (vao : handle) (positions normals : list Q) :
  vertices this = (positions ++ normals)%list ->
  List.length positions = List.length normals ->
  (0 <= getAttributeLocation sh "a_position")%Z ->
  (0 <= getAttributeLocation sh "a_normal")%Z ->
  exists offset : Q,
    pointers (snd (Object3D_createVAO this sh vao))
    = [ {| at_location := getAttributeLocation sh "a_position";
           at_size := num_components_vec3 this;
           at_stride := 0; at_offset := 0 |};
        {| at_location := getAttributeLocation sh "a_normal";
           at_size := num_components_vec3 this;
           at_stride := 0; at_offset := offset |} ] /\
    offset == 2 * inject_Z (Z.of_nat (List.length (vertices this))) /\
    offset == BYTES_PER_ELEMENT * inject_Z (Z.of_nat (List.length positions)).
Proof.
  intros Hv Hlen Hp Hn.
  apply Z.leb_le in Hp, Hn.
  unfold Object3D_createVAO; rewrite Hp, Hn.
  cbn [bind_attribute app pointers snd vertices num_components_vec3
       set_vertex_array_object].
  eexists; split; [reflexivity |].
  split.
  - unfold BYTES_PER_ELEMENT; field.
  - rewrite Hv, length_app, <- Hlen, Znat.Nat2Z.inj_add, inject_Z_plus.
    unfold BYTES_PER_ELEMENT; field.
Qed.

(** Two positions followed by two normals: the normals start at byte 24. *)
Lemma separate_layout_normals_follow_positions_witness :
  exists offset : Q,
    pointers
      (snd (Object3D_createVAO
              {| shader := full_shader; material := None;
                 vertices := repeat 0 12; vertices_buffer := Some 1%nat;
                 indices := [0; 1]; index_buffer := Some 2%nat;
                 draw_mode := 0;
                 num_components_vec3 := 3; num_components_vec2 := 2;
                 vertex_array_object := None; model_matrix := [] |}
              full_shader 3%nat))
    = [ {| at_location := 0; at_size := 3; at_stride := 0; at_offset := 0 |};
        {| at_location := 1; at_size := 3; at_stride := 0; at_offset := offset |} ] /\
    offset == 24.
Proof.
  destruct (@separate_layout_normals_follow_positions
              {| shader := full_shader; material := None;
                 vertices := repeat 0 12; vertices_buffer := Some 1%nat;
                 indices := [0; 1]; index_buffer := Some 2%nat;
                 draw_mode := 0;
                 num_components_vec3 := 3; num_components_vec2 := 2;
                 vertex_array_object := None; model_matrix := [] |}
              full_shader 3%nat (repeat 0 6) (repeat 0 6)
              eq_refl eq_refl ltac:(discriminate) ltac:(discriminate))
    as (offset & Hps & _ & Hoff).
  exists offset; split; [exact Hps |].
  rewrite Hoff; reflexivity.
Defined.

(** ** The host side: rendering and construction *)

(** X12: [ShadedObject3D.render] puts each map the material has into the
    texture unit its sampler uniform is set to: the diffuse map in unit 0,
    the specular map in unit 1, the normal map in unit 2.  For a map the
    material does not have, neither the unit nor the sampler uniform is
    touched: they keep what an earlier call left there.  No other unit is
    touched. *)
Theorem render_binds_each_map_to_its_unit
    (this : Object3D) (m : Material) (s : gl_state) :
  material this = Some m ->
  (if hasMapKD m
   then unit_texture (run s (fst (ShadedObject3D_render this))) 0 = Some (getMapKD m) /\
        sampler (run s (fst (ShadedObject3D_render this))) "u_material.map_kD"
        = Some 0%Z
   else unit_texture (run s (fst (ShadedObject3D_render this))) 0 = unit_texture s 0 /\
        sampler (run s (fst (ShadedObject3D_render this))) "u_material.map_kD"
        = sampler s "u_material.map_kD") /\
  (if hasMapNS m
   then unit_texture (run s (fst (ShadedObject3D_render this))) 1 = Some (getMapNS m) /\
        sampler (run s (fst (ShadedObject3D_render this))) "u_material.map_nS"
        = Some 1%Z
   else unit_texture (run s (fst (ShadedObject3D_render this))) 1 = unit_texture s 1 /\
        sampler (run s (fst (ShadedObject3D_render this))) "u_material.map_nS"
        = sampler s "u_material.map_nS") /\
  (if hasMapNorm m
   then unit_texture (run s (fst (ShadedObject3D_render this))) 2 = Some (getMapNorm m) /\
        sampler (run s (fst (ShadedObject3D_render this))) "u_material.map_norm"
        = Some 2%Z
   else unit_texture (run s (fst (ShadedObject3D_render this))) 2 = unit_texture s 2 /\
        sampler (run s (fst (ShadedObject3D_render this))) "u_material.map_norm"
        = sampler s "u_material.map_norm") /\
  (forall n : nat, (2 < n)%nat ->
     unit_texture (run s (fst (ShadedObject3D_render this))) n = unit_texture s n).
Proof.
  intros Hm; unfold ShadedObject3D_render; rewrite Hm.
  destruct (hasMapKD m), (hasMapNS m), (hasMapNorm m);
    cbn; repeat split; try reflexivity;
    intros n Hn; destruct n as [|[|[|n]]]; try lia; reflexivity.
Qed.

(** A material with a diffuse and a normal map but no specular map,
    rendered from the idle state: unit 1 stays empty. *)
Lemma render_binds_each_map_to_its_unit_witness :
  unit_texture (run idle (fst (ShadedObject3D_render
                                 {| shader := full_shader;
                                    material := Some textured_material;
                                    vertices := []; vertices_buffer := None;
                                    indices := []; index_buffer := None;
                                    draw_mode := 4;
                                    num_components_vec3 := 3;
                                    num_components_vec2 := 2;
                                    vertex_array_object := None;
                                    model_matrix := [] |}))) 1
  = None.
Proof.
  exact (proj1 (proj1 (proj2
           (@render_binds_each_map_to_its_unit
              {| shader := full_shader; material := Some textured_material;
                 vertices := []; vertices_buffer := None;
                 indices := []; index_buffer := None;
                 draw_mode := 4;
                 num_components_vec3 := 3; num_components_vec2 := 2;
                 vertex_array_object := None; model_matrix := [] |}
              textured_material idle eq_refl)))).
Defined.

Definition uploaded_in_use (o : observation) : Prop :=
  match o with
  | uniform_uploaded in_use _ => in_use = true
  | _ => True
  end.

(** X13: a call of [render] that returns normally, on an object of either
    class that has a vertex array, draws exactly once: with the object's
    vertex array current, the object's index buffer as element buffer, the
    shader in use, the object's draw mode and [indices.length] as count.
    Every uniform is uploaded while the shader is in use.  Afterwards no
    vertex array and no buffer is bound, the shader is not in use, and the
    object's vertex array remembers the index buffer. *)
Theorem render_draws_once_with_the_object_bound
    (c : class) (this : Object3D) (s : gl_state) (vao : handle) :
  vertex_array_object this = Some vao ->
  snd (render c this) = Normal ->
  draws_of (observations s (fst (render c this)))
  = [drawn (Some vao) (index_buffer this) true (draw_mode this)
           (List.length (indices this))] /\
  Forall uploaded_in_use (observations s (fst (render c this))) /\
  current_vao (run s (fst (render c this))) = None /\
  array_buffer (run s (fst (render c this))) = None /\
  element_buffer (run s (fst (render c this))) None = None /\
  program_in_use (run s (fst (render c this))) = false /\
  element_buffer (run s (fst (render c this))) (Some vao) = index_buffer this.
Proof.
  intros Hvao Hnormal; revert Hnormal.
  unfold render, ShadedObject3D_render, Object3D_render; rewrite Hvao.
  destruct c; [| destruct (material this) as [m |]; [| discriminate]];
    intros _;
    try destruct (hasMapKD m); try destruct (hasMapNS m); try destruct (hasMapNorm m);
    cbn; rewrite ?Nat.eqb_refl;
    (split; [reflexivity |]);
    (split; [repeat constructor |]);
    repeat split; reflexivity.
Qed.

(** The triangle, as the constructor builds it, rendered from the idle
    state: one draw of 3 indices with vertex array 3 and index buffer 2. *)
Lemma render_draws_once_with_the_object_bound_witness :
  exists this : Object3D,
    fst triangle = Some this /\
    draws_of (observations idle (fst (render ShadedObject3D_class this)))
    = [drawn (Some 3%nat) (Some 2%nat) true 4 3%nat].
Proof.
  eexists; split; [reflexivity |].
  refine (proj1 (@render_draws_once_with_the_object_bound
                   ShadedObject3D_class _ idle 3%nat _ _)); reflexivity.
Defined.

(** X14: the constructor throws exactly when a [ShadedObject3D] is built
    without a material; a plain [Object3D] may have none.  The object it
    returns has the given shader, material, data and draw mode, the three
    handles WebGL handed out, the component counts 3 and 2 and the identity
    as model matrix, and its [render] returns normally. *)
Theorem construction_throws_only_without_material
    (c : class) (sh : Shader) (vs ixs : list Q) (mode : Z)
    (mat : option Material) (vbo ibo vao : handle) :
  (fst (new c sh vs ixs mode mat vbo ibo vao) = None
   <-> c = ShadedObject3D_class /\ mat = None) /\
  (forall this : Object3D,
      fst (new c sh vs ixs mode mat vbo ibo vao) = Some this ->
      shader this = sh /\ material this = mat /\
      vertices this = vs /\ indices this = ixs /\ draw_mode this = mode /\
      vertices_buffer this = Some vbo /\ index_buffer this = Some ibo /\
      vertex_array_object this = Some vao /\
      num_components_vec3 this = 3 /\ num_components_vec2 this = 2 /\
      model_matrix this = mat4_identity /\
      snd (render c this) = Normal).
Proof.
  unfold new, createVAO, createVBO, createIBO, ShadedObject3D_createVAO,
    Object3D_createVAO, render, ShadedObject3D_render.
  destruct c; [| destruct mat as [m |]]; cbn [fst snd material set_vertex_array_object].
  - split.
    + split; [discriminate | intros [Hc _]; discriminate].
    + intros this Hthis; injection Hthis as <-; cbn; repeat split.
  - split.
    + split; [discriminate | intros [_ Hm]; discriminate].
    + intros this Hthis; injection Hthis as <-; cbn; repeat split.
  - split.
    + split; [intros _; split; reflexivity | reflexivity].
    + intros this Hthis; discriminate.
Qed.

Definition captured_with (vao vbo : handle) (o : observation) : Prop :=
  match o with
  | pointer_captured v b _ => v = Some vao /\ b = Some vbo
  | _ => True
  end.

(** X15: during construction every attribute pointer is captured while
    the object's new vertex array is current and its new vertex buffer is
    bound to [ARRAY_BUFFER].  A construction that succeeds leaves no vertex
    array and no array buffer bound; the one that throws (a
    [ShadedObject3D] without material) leaves both bound. *)
Theorem construction_captures_pointers_with_own_buffer
    (c : class) (sh : Shader) (vs ixs : list Q) (mode : Z)
    (mat : option Material) (vbo ibo vao : handle) (s : gl_state) :
  Forall (captured_with vao vbo)
         (observations s (snd (new c sh vs ixs mode mat vbo ibo vao))) /\
  (fst (new c sh vs ixs mode mat vbo ibo vao) <> None ->
   current_vao (run s (snd (new c sh vs ixs mode mat vbo ibo vao))) = None /\
   array_buffer (run s (snd (new c sh vs ixs mode mat vbo ibo vao))) = None) /\
  (fst (new c sh vs ixs mode mat vbo ibo vao) = None ->
   current_vao (run s (snd (new c sh vs ixs mode mat vbo ibo vao))) = Some vao /\
   array_buffer (run s (snd (new c sh vs ixs mode mat vbo ibo vao))) = Some vbo).
Proof.
  unfold new, createVAO, createVBO, createIBO, ShadedObject3D_createVAO,
    Object3D_createVAO.
  destruct c; [| destruct mat as [m |]];
    cbn [fst snd material set_vertex_array_object vertices_buffer
         num_components_vec3 num_components_vec2];
    try destruct (hasTexture m);
    repeat match goal with
           | |- context [(0 <=? getAttributeLocation sh ?n)%Z] =>
               destruct (0 <=? getAttributeLocation sh n)%Z
           end;
    cbn -[Qmult Qplus Qdiv inject_Z];
    (split; [repeat constructor |]);
    split; intros Hres; try (exfalso; apply Hres; reflexivity);
    try discriminate; split; reflexivity.
Qed.

(** ** The host side: setters and textures *)

(** X16: [setShader] deletes the object's old vertex array first, then
    rebuilds the layout for the new shader: the object gets the new shader
    and the new vertex array and keeps everything else, and the attributes
    enabled are exactly those of the object's layout that the new shader
    has.  When it returns normally for an object that can be rendered, the
    next [render] draws with the new vertex array. *)
Theorem setShader_rebuilds_the_vertex_array
    (c : class) (this : Object3D) (sh : Shader) (vao : handle) (s : gl_state) :
  hd_error (snd (fst (setShader c this sh vao)))
  = Some (deleteVertexArray (vertex_array_object this)) /\
  fst (fst (setShader c this sh vao))
  = set_vertex_array_object (set_shader this sh) (Some vao) /\
  enabled (snd (fst (setShader c this sh vao)))
  = filter (fun l => (0 <=? l)%Z)
           (map (getAttributeLocation sh) (described_attributes c this)) /\
  (snd (setShader c this sh vao) = Normal ->
   draws_of (observations s (fst (render c (fst (fst (setShader c this sh vao))))))
   = [drawn (Some vao) (index_buffer this) true (draw_mode this)
            (List.length (indices this))]).
Proof.
  unfold setShader, createVAO, ShadedObject3D_createVAO, Object3D_createVAO,
    described_attributes, render, ShadedObject3D_render, Object3D_render.
  rewrite material_set_vertex_array_object.
  cbn [material set_shader].
  destruct c; [| destruct (material this) as [m |] eqn:Hm;
                 [destruct (hasTexture m) |]];
    cbn [fst snd hd_error map filter material set_vertex_array_object
         set_shader vertex_array_object index_buffer draw_mode indices];
    repeat match goal with
           | |- context [(0 <=? getAttributeLocation sh ?n)%Z] =>
               destruct (0 <=? getAttributeLocation sh n)%Z
           end;
    (split; [reflexivity |]); (split; [reflexivity |]);
    (split; [reflexivity |]);
    intros Hnormal; try discriminate;
    try rewrite Hm;
    try destruct (hasMapKD m); try destruct (hasMapNS m);
    try destruct (hasMapNorm m);
    cbn; rewrite ?Nat.eqb_refl; reflexivity.
Qed.

Definition written_to (t : handle) (o : observation) : Prop :=
  match o with
  | texture_written bound => bound = Some t
  | _ => True
  end.

Definition not_a_texture_write (o : observation) : Prop :=
  match o with
  | texture_written _ => False
  | _ => True
  end.

(** X17: a [Texture] hands out its WebGL texture as soon as it is
    constructed, but writes nothing into it before the image has arrived.
    The [onload] handler then binds that texture in whichever unit is
    active and makes every upload and setting on it; it leaves the texture
    bound in that unit, and touches no other unit and not the choice of the
    active unit.  With the [flip_y] argument left out, the flip is on. *)
Theorem texture_is_filled_when_the_image_arrives
    (name : string) (flip_y : option bool) (created : handle) (s : gl_state) :
  getGlTexture (fst (fst (Texture_new name flip_y created))) = Some created /\
  Forall not_a_texture_write
         (observations s (snd (fst (Texture_new name flip_y created)))) /\
  hd_error (snd (fst (Texture_new name flip_y created)))
  = Some (pixelStorei (match flip_y with Some b => b | None => true end)) /\
  Forall (written_to created)
         (observations s (snd (Texture_new name flip_y created))) /\
  List.length (observations s (snd (Texture_new name flip_y created))) = 6%nat /\
  unit_texture (run s (snd (Texture_new name flip_y created))) (active_unit s)
  = Some created /\
  active_unit (run s (snd (Texture_new name flip_y created))) = active_unit s /\
  (forall n : nat, n <> active_unit s ->
     unit_texture (run s (snd (Texture_new name flip_y created))) n
     = unit_texture s n).
Proof.
  unfold Texture_new, Texture_createTexture, getGlTexture.
  cbn [fst snd texture hd_error observations observe step app run fold_left
       active_unit unit_texture List.length].
  rewrite Nat.eqb_refl.
  split; [reflexivity |]. split; [repeat constructor |].
  split; [reflexivity |]. split; [repeat constructor |].
  split; [reflexivity |]. split; [reflexivity |]. split; [reflexivity |].
  intros n Hn; apply Nat.eqb_neq in Hn; rewrite Hn; reflexivity.
Qed.
End HostFacts.
